(** * Operating-hours filter of the bay-event-map backend

    A shallow embedding of [src/place_hours_filter.py] (class
    [PlaceHoursFilter]) and the properties its specification states about the
    free-text hours parser, the open/closed evaluator and the batch filter.

    Python values are modelled as follows.
    - A [str] is a sequence of Unicode code points: [list N].
    - The character tables the interpreter consults ([str.isspace],
      [str.lower], [str.upper], the decimal digits behind [\d] and [int]) are
      fixed here for Basic Latin and for the en dash that the source's own
      pattern mentions; for every other code point they are read from a
      Unicode character database, which is a parameter (class [Unicode]).
    - [re.search] is a backtracking matcher over the pattern's syntax tree,
      greedy and leftmost, with numbered capture groups.
    - Exceptions are a [result] type; [datetime.time] is a record built by a
      range-checking constructor.
    - Place records are [dict] objects in a store, so that copying and
      popping a key are visible as store updates. *)

From Stdlib Require Import NArith ZArith Lia Bool String Ascii.
From Stdlib Require Import Floats.SpecFloat.
From stdpp Require Import base option list gmap.

Local Open Scope N_scope.

Set Warnings "-unused-intro-pattern".

(** ** Strings as code-point sequences *)

Abbreviation pystr := (list N).

Module Utf8.

(** Literals are written as Rocq strings, whose bytes are the UTF-8
    encoding of the text; [decode] recovers the code points. *)

Fixpoint bytes (s : string) : list N :=
  match s with
  | EmptyString => []
  | String a s' => N_of_ascii a :: bytes s'
  end.

Definition cont (b : N) : N := b mod 64.

Fixpoint decode_bytes (fuel : nat) (bs : list N) : list N :=
  match fuel with
  | O => []
  | S fuel' =>
      match bs with
      | [] => []
      | b0 :: r0 =>
          if b0 <? 128 then b0 :: decode_bytes fuel' r0
          else if b0 <? 224 then
            match r0 with
            | b1 :: r1 => ((b0 mod 32) * 64 + cont b1) :: decode_bytes fuel' r1
            | _ => []
            end
          else if b0 <? 240 then
            match r0 with
            | b1 :: b2 :: r2 =>
                ((b0 mod 16) * 4096 + cont b1 * 64 + cont b2)
                  :: decode_bytes fuel' r2
            | _ => []
            end
          else
            match r0 with
            | b1 :: b2 :: b3 :: r3 =>
                ((b0 mod 8) * 262144 + cont b1 * 4096 + cont b2 * 64 + cont b3)
                  :: decode_bytes fuel' r3
            | _ => []
            end
      end
  end.

Definition decode (s : string) : list N :=
  let bs := bytes s in decode_bytes (List.length bs) bs.

End Utf8.

Definition py (s : string) : pystr := Utf8.decode s.

(** Code points the source names. *)
Definition COLON : N := 58.
Definition COMMA : N := 44.
Definition HYPHEN : N := 45.
Definition EN_DASH : N := 8211.
Definition CAPITAL_SIGMA : N := 931.
Definition SMALL_SIGMA : N := 963.
Definition FINAL_SIGMA : N := 962.

(** ** Character tables *)

Module Ascii7.

(** [str.isspace] on Basic Latin: TAB, LF, VT, FF, CR, the four
    information separators and SPACE. *)
Definition isspace (c : N) : bool :=
  ((9 <=? c) && (c <=? 13)) || ((28 <=? c) && (c <=? 32)).

Definition todecimal (c : N) : option N :=
  if (48 <=? c) && (c <=? 57) then Some (c - 48) else None.

Definition isupper (c : N) : bool := (65 <=? c) && (c <=? 90).
Definition islower (c : N) : bool := (97 <=? c) && (c <=? 122).

Definition tolower (c : N) : N := if isupper c then c + 32 else c.
Definition toupper (c : N) : N := if islower c then c - 32 else c.

Definition is_cased (c : N) : bool := isupper c || islower c.

(** Apostrophe, full stop, colon, circumflex and grave accent. *)
Definition is_case_ignorable (c : N) : bool :=
  (c =? 39) || (c =? 46) || (c =? 58) || (c =? 94) || (c =? 96).

End Ascii7.

(** The Unicode character database for every other code point, and the
    facts of the database that the proofs rely on: a white-space character is
    not a decimal digit; a lower-case mapping is never empty; the only Basic
    Latin characters that occur in the lower-case mapping of a character
    outside Basic Latin are [i] (from U+0130) and [k] (from U+212A). *)
Class Unicode := {
  db_isspace : N → bool;
  db_decimal : N → option N;
  db_lower : N → list N;
  db_upper : N → list N;
  db_cased : N → bool;
  db_case_ignorable : N → bool;
}.

Class UnicodeLaws (U : Unicode) : Prop := {
  db_space_not_decimal :
    ∀ c, db_isspace c = true → db_decimal c = None;
  db_lower_nonempty :
    ∀ c, 128 ≤ c → db_lower c ≠ [];
  db_lower_latin :
    ∀ c x, 128 ≤ c → x ∈ db_lower c → x < 128 → x = 105 ∨ x = 107;
}.

Section Tables.
Context {U : Unicode}.

Definition isspace (c : N) : bool :=
  if c <? 128 then Ascii7.isspace c
  else if c =? EN_DASH then false else db_isspace c.

Definition todecimal (c : N) : option N :=
  if c <? 128 then Ascii7.todecimal c
  else if c =? EN_DASH then None else db_decimal c.

Definition tolower_full (c : N) : list N :=
  if c <? 128 then [Ascii7.tolower c]
  else if c =? EN_DASH then [c] else db_lower c.

Definition toupper_full (c : N) : list N :=
  if c <? 128 then [Ascii7.toupper c]
  else if c =? EN_DASH then [c] else db_upper c.

Definition is_cased (c : N) : bool :=
  if c <? 128 then Ascii7.is_cased c
  else if c =? EN_DASH then false else db_cased c.

Definition is_case_ignorable (c : N) : bool :=
  if c <? 128 then Ascii7.is_case_ignorable c
  else if c =? EN_DASH then false else db_case_ignorable c.

Definition isdecimal (c : N) : bool :=
  match todecimal c with Some _ => true | None => false end.

End Tables.

(** An excerpt of the database, used to evaluate the model on concrete
    inputs: the white space outside Basic Latin, the Arabic-Indic and
    full-width digits, and the case mappings of Latin-1 together with the two
    characters named in the last law. *)
Module Excerpt.

Definition isspace (c : N) : bool :=
  (c =? 0x85) || (c =? 0xA0) || (c =? 0x1680)
  || ((0x2000 <=? c) && (c <=? 0x200A))
  || (c =? 0x2028) || (c =? 0x2029) || (c =? 0x202F) || (c =? 0x205F)
  || (c =? 0x3000).

Definition decimal (c : N) : option N :=
  if (0x660 <=? c) && (c <=? 0x669) then Some (c - 0x660)
  else if (0xFF10 <=? c) && (c <=? 0xFF19) then Some (c - 0xFF10)
  else None.

Definition lower (c : N) : list N :=
  if (0xC0 <=? c) && (c <=? 0xDE) && negb (c =? 0xD7) then [c + 32]
  else if c =? 0x130 then [105; 0x307]
  else if c =? 0x212A then [107]
  else [c].

Definition upper (c : N) : list N :=
  if (0xE0 <=? c) && (c <=? 0xFE) && negb (c =? 0xF7) then [c - 32]
  else if c =? 0xDF then [83; 83]
  else if c =? 0xFF then [0x178]
  else if c =? 0xB5 then [0x39C]
  else [c].

Definition cased (c : N) : bool :=
  ((0xC0 <=? c) && (c <=? 0xFF) && negb (c =? 0xD7) && negb (c =? 0xF7))
  || (c =? 0xAA) || (c =? 0xB5) || (c =? 0xBA)
  || (c =? 0x130) || (c =? 0x212A).

Definition case_ignorable (c : N) : bool :=
  (c =? 0xA8) || (c =? 0xAD) || (c =? 0xAF) || (c =? 0xB4) || (c =? 0xB7)
  || (c =? 0xB8) || ((0x300 <=? c) && (c <=? 0x36F)).

End Excerpt.

Definition ucd_excerpt : Unicode := {|
  db_isspace := Excerpt.isspace;
  db_decimal := Excerpt.decimal;
  db_lower := Excerpt.lower;
  db_upper := Excerpt.upper;
  db_cased := Excerpt.cased;
  db_case_ignorable := Excerpt.case_ignorable;
|}.

(** ** [str] methods *)

Section Str.
Context {U : Unicode}.

Fixpoint lstrip (s : pystr) : pystr :=
  match s with
  | c :: s' => if isspace c then lstrip s' else s
  | [] => []
  end.

Definition rstrip (s : pystr) : pystr := rev (lstrip (rev s)).

(** [s.strip()] *)
Definition strip (s : pystr) : pystr := lstrip (rstrip s).

(** [s.upper()]: the full upper-case mapping of each character. *)
Definition upper (s : pystr) : pystr := flat_map toupper_full s.

Fixpoint skip_case_ignorable (s : pystr) : pystr :=
  match s with
  | c :: s' => if is_case_ignorable c then skip_case_ignorable s' else s
  | [] => []
  end.

(** The interpreter's [handle_capital_sigma]: [before] is the text to the
    left of the sigma, nearest character first, [after] the text to its
    right. *)
Definition handle_capital_sigma (before after : pystr) : N :=
  let final_sigma :=
    match skip_case_ignorable before with
    | c :: _ => is_cased c
    | [] => false
    end in
  let final_sigma :=
    if final_sigma then
      match skip_case_ignorable after with
      | [] => true
      | c :: _ => negb (is_cased c)
      end
    else false in
  if final_sigma then FINAL_SIGMA else SMALL_SIGMA.

Fixpoint lower_from (before s : pystr) : pystr :=
  match s with
  | [] => []
  | c :: s' =>
      (if c =? CAPITAL_SIGMA then [handle_capital_sigma before s']
       else tolower_full c) ++ lower_from (c :: before) s'
  end.

(** [s.lower()] *)
Definition lower (s : pystr) : pystr := lower_from [] s.

(** [s.startswith(p)] *)
Fixpoint startswith (p s : pystr) : bool :=
  match p, s with
  | [], _ => true
  | a :: p', b :: s' => (a =? b) && startswith p' s'
  | _ :: _, [] => false
  end.

(** [needle in s] *)
Fixpoint contains (needle s : pystr) : bool :=
  startswith needle s ||
  match s with
  | [] => false
  | _ :: s' => contains needle s'
  end.

(** [s.split(sep)] for a one-character separator. *)
Fixpoint split (sep : N) (s : pystr) : list pystr :=
  match s with
  | [] => [[]]
  | c :: s' =>
      if c =? sep then [] :: split sep s'
      else match split sep s' with
           | seg :: segs => (c :: seg) :: segs
           | [] => [[c]]
           end
  end.

End Str.

(** ** Exceptions *)

Inductive exn := ValueError | AttributeError | TypeError.

Inductive result (A : Type) :=
| Ok (a : A)
| Raise (e : exn).
Arguments Ok {A} a.
Arguments Raise {A} e.

#[global] Instance result_ret : MRet result := λ A a, Ok a.
#[global] Instance result_bind : MBind result := λ A B f m,
  match m with
  | Ok a => f a
  | Raise e => Raise e
  end.

(** ** [datetime.time] *)

Record time := Time { hour : N; minute : N }.

(** [time(hour, minute)] raises [ValueError] outside 0..23 and 0..59. *)
Definition mk_time (h m : N) : result time :=
  if (h <=? 23) && (m <=? 59) then Ok (Time h m) else Raise ValueError.

(** [a <= b] on naive times: (hour, minute) in lexicographic order. *)
Definition time_le (a b : time) : bool :=
  (hour a <? hour b) || ((hour a =? hour b) && (minute a <=? minute b)).

(** ** Regular expressions *)

Inductive cset :=
| CDigit                    (* \d *)
| CSpace                    (* \s *)
| COneOf (l : list N).      (* [...] *)

Inductive regex :=
| RSet (c : cset)
| RLit (s : pystr)
| RSeq (r1 r2 : regex)
| RAlt (r1 r2 : regex)
| RRep (lo hi : nat) (r : regex)     (* r{lo,hi}, greedy *)
| RStar (c : cset)                   (* c*, greedy *)
| RGroup (i : nat) (r : regex).      (* capturing group number i *)

Notation "r1 ⋅ r2" := (RSeq r1 r2) (at level 41, right associativity).

(** Backtracking: the second alternative is tried when the first fails. *)
Notation "x 'orelse' y" :=
  (match x with Some r => Some r | None => y end)
  (at level 50, left associativity, only parsing).

(** The groups captured so far, most recent first. *)
Abbreviation captures := (list (nat * pystr)).

Fixpoint group (m : captures) (i : nat) : pystr :=
  match m with
  | [] => []
  | (j, s) :: m' => if Nat.eqb i j then s else group m' i
  end.

Section Regex.
Context {U : Unicode}.

Definition in_cset (cs : cset) (c : N) : bool :=
  match cs with
  | CDigit => isdecimal c
  | CSpace => isspace c
  | COneOf l => existsb (N.eqb c) l
  end.

Fixpoint strip_prefix (p s : pystr) : option pystr :=
  match p, s with
  | [], _ => Some s
  | a :: p', b :: s' => if a =? b then strip_prefix p' s' else None
  | _ :: _, [] => None
  end.

Section Cont.
Context {A : Type}.
(** A continuation receives the rest of the input and the captures. *)
Let cont := pystr → captures → option A.

Fixpoint match_star (cs : cset) (k : cont) (s : pystr) (m : captures)
  : option A :=
  match s with
  | c :: s' =>
      if in_cset cs c then match_star cs k s' m orelse k s m
      else k s m
  | [] => k s m
  end.

Fixpoint match_rep (step : cont → cont) (lo hi : nat) (k : cont)
    (s : pystr) (m : captures) : option A :=
  match hi with
  | O => match lo with O => k s m | S _ => None end
  | S hi' =>
      step (match_rep step (pred lo) hi' k) s m
      orelse match lo with O => k s m | S _ => None end
  end.

(** First match of [r] at the head of [s] in backtracking order. *)
Fixpoint rmatch (r : regex) (k : cont) (s : pystr) (m : captures)
  : option A :=
  match r with
  | RSet cs =>
      match s with
      | c :: s' => if in_cset cs c then k s' m else None
      | [] => None
      end
  | RLit p =>
      match strip_prefix p s with
      | Some s' => k s' m
      | None => None
      end
  | RSeq r1 r2 => rmatch r1 (rmatch r2 k) s m
  | RAlt r1 r2 => rmatch r1 k s m orelse rmatch r2 k s m
  | RRep lo hi r' => match_rep (rmatch r') lo hi k s m
  | RStar cs => match_star cs k s m
  | RGroup i r' =>
      rmatch r'
        (λ s' m', k s' ((i, take (List.length s - List.length s') s) :: m'))
        s m
  end.
End Cont.

Definition match_here (r : regex) (s : pystr) : option captures :=
  rmatch r (λ _ m, Some m) s [].

(** [re.search(r, s)]: the match at the leftmost position that has one. *)
Fixpoint re_search (r : regex) (s : pystr) : option captures :=
  match_here r s
  orelse match s with
         | [] => None
         | _ :: s' => re_search r s'
         end.

End Regex.

(** ** [PlaceHoursFilter] *)

Fixpoint eqb_str (a b : pystr) : bool :=
  match a, b with
  | [], [] => true
  | x :: a', y :: b' => (x =? y) && eqb_str a' b'
  | _, _ => false
  end.

(** [self.day_mapping] *)
Definition day_mapping_items : list (pystr * pystr) :=
    [ (py "monday", py "Monday");
      (py "tuesday", py "Tuesday");
      (py "wednesday", py "Wednesday");
      (py "thursday", py "Thursday");
      (py "friday", py "Friday");
      (py "saturday", py "Saturday");
      (py "sunday", py "Sunday");
      (py "mon", py "Monday");
      (py "tue", py "Tuesday");
      (py "wed", py "Wednesday");
      (py "thu", py "Thursday");
      (py "fri", py "Friday");
      (py "sat", py "Saturday");
      (py "sun", py "Sunday") ].

Definition day_mapping : gmap pystr pystr := list_to_map day_mapping_items.

(** [\d{1,2}] and [\d{2}] *)
Definition digits_1_2 : regex := RRep 1 2 (RSet CDigit).
Definition digits_2 : regex := RRep 2 2 (RSet CDigit).

(** [(\d{1,2}):(\d{2})\s*(AM|PM)] *)
Definition time_12h_pattern : regex :=
  RGroup 1 digits_1_2 ⋅ RLit (py ":") ⋅ RGroup 2 digits_2 ⋅ RStar CSpace
    ⋅ RGroup 3 (RAlt (RLit (py "AM")) (RLit (py "PM"))).

(** [(\d{1,2}):(\d{2})] *)
Definition time_24h_pattern : regex :=
  RGroup 1 digits_1_2 ⋅ RLit (py ":") ⋅ RGroup 2 digits_2.

(** [\d{1,2}:\d{2}\s*(?:AM|PM)?] *)
Definition time_token : regex :=
  digits_1_2 ⋅ RLit (py ":") ⋅ digits_2 ⋅ RStar CSpace
    ⋅ RRep 0 1 (RAlt (RLit (py "AM")) (RLit (py "PM"))).

(** [(\d{1,2}:\d{2}\s*(?:AM|PM)?)\s*[–-]\s*(\d{1,2}:\d{2}\s*(?:AM|PM)?)] *)
Definition time_pattern : regex :=
  RGroup 1 time_token ⋅ RStar CSpace ⋅ RSet (COneOf [EN_DASH; HYPHEN])
    ⋅ RStar CSpace ⋅ RGroup 2 time_token.

Section PlaceHoursFilter.
Context {U : Unicode}.

(** [int(s)] on the text of a [\d] group. *)
Fixpoint int_digits (acc : N) (s : pystr) : result N :=
  match s with
  | [] => Ok acc
  | c :: s' =>
      match todecimal c with
      | Some d => int_digits (acc * 10 + d) s'
      | None => Raise ValueError
      end
  end.

Definition int (s : pystr) : result N :=
  match s with
  | [] => Raise ValueError
  | _ => int_digits 0 s
  end.

Definition parse_time (time_str : pystr) : result time :=
  let time_str := upper (strip time_str) in
  if contains (py "AM") time_str || contains (py "PM") time_str then
    match re_search time_12h_pattern time_str with
    | Some time_match =>
        hour ← int (group time_match 1);
        minute ← int (group time_match 2);
        let period := group time_match 3 in
        let hour :=
          if eqb_str period (py "AM") && (hour =? 12) then 0
          else if eqb_str period (py "PM") && negb (hour =? 12) then hour + 12
          else hour in
        mk_time hour minute
    | None => Raise ValueError
    end
  else
    match re_search time_24h_pattern time_str with
    | Some time_match =>
        hour ← int (group time_match 1);
        minute ← int (group time_match 2);
        mk_time hour minute
    | None => Raise ValueError
    end.

Definition parse_day (day_str : pystr) : result pystr :=
  let day_lower := lower (strip day_str) in
  match day_mapping !! day_lower with
  | Some day => Ok day
  | None => Raise ValueError
  end.

(** One turn of the loop over the comma-separated ranges: a range whose
    text has no match, or whose times [parse_time] rejects, adds nothing
    (the warning printed in the second case is not modelled). *)
Definition add_range (time_ranges : list (time * time)) (range_str : pystr)
  : list (time * time) :=
  match re_search time_pattern range_str with
  | Some m =>
      let start_time_str := group m 1 in
      let end_time_str := group m 2 in
      match parse_time start_time_str with
      | Ok start_time =>
          match parse_time end_time_str with
          | Ok end_time => time_ranges ++ [(start_time, end_time)]
          | Raise ValueError => time_ranges
          | Raise _ => time_ranges
          end
      | Raise _ => time_ranges
      end
  | None => time_ranges
  end.

Definition parse_hours_string (hours_str : pystr) : list (time * time) :=
  let hours_str := strip hours_str in
  if contains (py "closed") (lower hours_str) then []
  else if contains (py "24 hours") (lower hours_str)
          || contains (py "open 24 hours") (lower hours_str)
  then [(Time 0 0, Time 23 59)]
  else
    let ranges := map strip (split COMMA hours_str) in
    foldl add_range [] ranges.

End PlaceHoursFilter.

(** ** Values, objects and the store *)

(** What [json.load] produces.  Values nested inside a place record are
    never written to by this program, so they are modelled as immutable
    trees; the place records themselves and the lists that hold them are
    objects in the store. *)
#[warnings="-register-all"]
Inductive value :=
| VNone
| VBool (b : bool)
| VInt (z : Z)
| VFloat (f : spec_float)
| VStr (s : pystr)
| VList (l : list value)
| VDict (d : list (pystr * value)).

Abbreviation loc := nat.

Inductive object :=
| ODict (d : gmap pystr value)
| OList (l : list loc).

Abbreviation store := (list object).

(** Computations that read and write the store and may raise. *)
Definition heapM (A : Type) : Type := store → result (A * store).

#[global] Instance heapM_ret : MRet heapM := λ A a h, Ok (a, h).
#[global] Instance heapM_bind : MBind heapM := λ A B f m h,
  match m h with
  | Ok (a, h') => f a h'
  | Raise e => Raise e
  end.

Definition lift {A} (r : result A) : heapM A := λ h,
  match r with
  | Ok a => Ok (a, h)
  | Raise e => Raise e
  end.

Definition alloc (o : object) : heapM loc := λ h,
  Ok (List.length h, h ++ [o]).

Definition load (l : loc) : heapM object := λ h,
  match h !! l with
  | Some o => Ok (o, h)
  | None => Raise TypeError
  end.

Definition load_dict (l : loc) : heapM (gmap pystr value) := λ h,
  match h !! l with
  | Some (ODict d) => Ok (d, h)
  | _ => Raise TypeError
  end.

Definition load_list (l : loc) : heapM (list loc) := λ h,
  match h !! l with
  | Some (OList ls) => Ok (ls, h)
  | _ => Raise TypeError
  end.

Definition update (l : loc) (o : object) : heapM unit := λ h,
  Ok ((), <[l := o]> h).

(** [d.copy()] *)
Definition dict_copy (l : loc) : heapM loc :=
  d ← load_dict l; alloc (ODict d).

(** [d.pop(key, None)] *)
Definition dict_pop (l : loc) (key : pystr) : heapM unit :=
  d ← load_dict l; update l (ODict (delete key d)).

(** [xs.append(x)] *)
Definition list_append (l : loc) (x : loc) : heapM unit :=
  xs ← load_list l; update l (OList (xs ++ [x])).

(** Truth value of an object, as [not] tests it. *)
Definition truthy (v : value) : bool :=
  match v with
  | VNone => false
  | VBool b => b
  | VInt z => negb (z =? 0)%Z
  | VFloat (S754_zero _) => false
  | VFloat _ => true
  | VStr [] | VList [] | VDict [] => false
  | VStr _ | VList _ | VDict _ => true
  end.

Definition HOURS : pystr := py "hours".

Section Evaluator.
Context {U : Unicode}.

(** What [for hours_entry in place["hours"]] iterates over. *)
Definition iterate (v : value) : result (list value) :=
  match v with
  | VList l => Ok l
  | VStr s => Ok (map (λ c, VStr [c]) s)
  | VDict d => Ok (map (λ kv, VStr (fst kv)) d)
  | VNone | VBool _ | VInt _ | VFloat _ => Raise TypeError
  end.

(** The search loop: the first entry that starts with [prefix]; an entry
    that is not a [str] has no [startswith]. *)
Fixpoint find_day_hours (prefix : pystr) (entries : list value)
  : result (option pystr) :=
  match entries with
  | [] => Ok None
  | VStr hours_entry :: rest =>
      if startswith prefix hours_entry then Ok (Some hours_entry)
      else find_day_hours prefix rest
  | _ :: _ => Raise AttributeError
  end.

(** [start_time <= query_time <= end_time] *)
Definition within (query_time : time) (range : time * time) : bool :=
  time_le (fst range) query_time && time_le query_time (snd range).

Fixpoint any_range (query_time : time) (time_ranges : list (time * time))
  : bool :=
  match time_ranges with
  | [] => false
  | range :: rest =>
      if within query_time range then true else any_range query_time rest
  end.

Definition is_place_open (place : gmap pystr value) (query_time : time)
    (query_day : pystr) : result bool :=
  match place !! HOURS with
  | None => Ok false
  | Some hours =>
      if negb (truthy hours) then Ok false
      else
        entries ← iterate hours;
        day_hours ← find_day_hours (query_day ++ py ":") entries;
        match day_hours with
        | None | Some [] => Ok false
        | Some day_hours =>
            let time_ranges := parse_hours_string day_hours in
            Ok (any_range query_time time_ranges)
        end
  end.

(** The body of the loop over [places].  An element that is a list and not
    a record has no ["hours"] among its members, which are records and
    lists, so that [is_place_open] answers [False] for it at its first
    test. *)
Definition filter_step (open_places : loc) (query_time : time)
    (query_day : pystr) (place : loc) : heapM unit :=
  o ← load place;
  match o with
  | ODict d =>
      is_open ← lift (is_place_open d query_time query_day);
      if is_open : bool then
        place_copy ← dict_copy place;
        _ ← dict_pop place_copy HOURS;
        list_append open_places place_copy
      else mret ()
  | OList _ => mret ()
  end.

Fixpoint for_each {A} (body : A → heapM unit) (xs : list A) : heapM unit :=
  match xs with
  | [] => mret ()
  | x :: xs' => _ ← body x; for_each body xs'
  end.

(** The loop runs over the elements the list has on entry; nothing in its
    body writes to that list. *)
Definition filter_open_places (places : loc) (query_time : time)
    (query_day : pystr) : heapM loc :=
  open_places ← alloc (OList []);
  items ← load_list places;
  _ ← for_each (filter_step open_places query_time query_day) items;
  mret open_places.

End Evaluator.

(** ** Notions used to state the properties *)

(** Text made of white space only. *)
Definition all_space {U : Unicode} (w : pystr) : Prop :=
  Forall (λ c, isspace c = true) w.

(** The text with its Basic Latin capitals turned into small letters. *)
Definition ascii_fold (s : pystr) : pystr := map Ascii7.tolower s.

(** [needle] occurs in [s] when the casing of Basic Latin letters is
    ignored. *)
Definition icontains (needle s : pystr) : bool := contains needle (ascii_fold s).

(** Basic Latin characters other than [i] and [k]. *)
Definition plain (c : N) : bool :=
  (c <? 128) && negb (c =? 105) && negb (c =? 107).

(** The data model: the [hours] of a place, when present, is a list of
    strings. *)
Definition well_formed (place : gmap pystr value) : Prop :=
  ∀ v, place !! HOURS = Some v → ∃ entries, v = VList (VStr <$> entries).

(** The first entry of [entries] that begins with ["<query_day>:"]. *)
Definition day_entry (query_day : pystr) (entries : list pystr)
  : option pystr :=
  List.find (startswith (query_day ++ py ":")) entries.

Definition first_day_entry (query_day : pystr) (entries : list pystr)
    (entry : pystr) : Prop :=
  ∃ before after,
    entries = before ++ entry :: after ∧
    startswith (query_day ++ py ":") entry = true ∧
    Forall (λ e, startswith (query_day ++ py ":") e = false) before.

(** The command line's query: the time and day arguments are normalised
    and the place is evaluated, as [main] does for every place. *)
Definition open_at {U : Unicode} (place : gmap pystr value)
    (time_arg day_arg : pystr) : result bool :=
  query_time ← parse_time time_arg;
  query_day ← parse_day day_arg;
  is_place_open place query_time query_day.

(** A place record that has only the [hours] field. *)
Definition place_with_hours (entries : list pystr) : gmap pystr value :=
  {[ HOURS := VList (VStr <$> entries) ]}.

(** The canonical day names, and the tokens that stand for a day: its name
    and the first three letters of its name, in small letters. *)
Definition day_names : list pystr :=
  [ py "Monday"; py "Tuesday"; py "Wednesday"; py "Thursday"; py "Friday";
    py "Saturday"; py "Sunday" ].

Definition day_tokens (name : pystr) : list pystr :=
  [ ascii_fold name; take 3 (ascii_fold name) ].

(** Twelve-hour time tokens: the hour with or without a leading zero, a
    colon, two minute digits, an optional space, and the suffix in any
    casing. *)
Inductive period := AM | PM.

Definition suffixes (p : period) : list pystr :=
  match p with
  | AM => [ py "AM"; py "am"; py "Am"; py "aM" ]
  | PM => [ py "PM"; py "pm"; py "Pm"; py "pM" ]
  end.

Definition hour_text (leading_zero : bool) (h : N) : pystr :=
  if h <? 10 then (if leading_zero then [48; 48 + h] else [48 + h])
  else [48 + h / 10; 48 + h mod 10].

Definition minute_text (m : N) : pystr := [48 + m / 10; 48 + m mod 10].

Definition token_12h (leading_zero : bool) (h m : N) (gap suffix : pystr)
  : pystr :=
  hour_text leading_zero h ++ py ":" ++ minute_text m ++ gap ++ suffix.

(** The hour of the day that a twelve-hour clock reading stands for. *)
Definition hour_24 (p : period) (h : N) : N :=
  match p with
  | AM => if h =? 12 then 0 else h
  | PM => if h =? 12 then 12 else h + 12
  end.

Definition parses_to {U : Unicode} (token : pystr) (h m : N) : bool :=
  match parse_time token with
  | Ok t => (hour t =? h) && (minute t =? m)
  | Raise _ => false
  end.

(** The evaluator as the specification words it (§4.3): the schedule text
    of an entry is what follows ["<Day>: "], and it is that text which is
    parsed. *)
Definition schedule_text (query_day entry : pystr) : pystr :=
  match drop (List.length (query_day ++ py ":")) entry with
  | 32 :: text => text
  | text => text
  end.

Definition is_place_open_spec {U : Unicode} (hours : option (list pystr))
    (query_time : time) (query_day : pystr) : bool :=
  match hours with
  | None | Some [] => false
  | Some entries =>
      match day_entry query_day entries with
      | None => false
      | Some entry =>
          existsb (within query_time)
            (parse_hours_string (schedule_text query_day entry))
      end
  end.

(** The record stored at a location, and whether the evaluator finds it
    open. *)
Definition dict_at (h : store) (l : loc) : option (gmap pystr value) :=
  match h !! l with
  | Some (ODict d) => Some d
  | _ => None
  end.

Definition place_is_open {U : Unicode} (h : store) (query_time : time)
    (query_day : pystr) (place : loc) : bool :=
  match dict_at h place with
  | Some d =>
      match is_place_open d query_time query_day with
      | Ok true => true
      | _ => false
      end
  | None => false
  end.

(** Every element of the list names a well-formed place record. *)
Definition places_ok (h : store) (items : list loc) : Prop :=
  Forall (λ p, ∃ d, h !! p = Some (ODict d) ∧ well_formed d) items.

(** The texts a pattern can match, captures and the order of backtracking
    aside. *)
Fixpoint lang {U : Unicode} (r : regex) (s : pystr) : Prop :=
  match r with
  | RSet cs => ∃ c, s = [c] ∧ in_cset cs c = true
  | RLit p => s = p
  | RSeq r1 r2 => ∃ s1 s2, s = s1 ++ s2 ∧ lang r1 s1 ∧ lang r2 s2
  | RAlt r1 r2 => lang r1 s ∨ lang r2 s
  | RRep lo hi r' =>
      ∃ ss, s = concat ss ∧ (lo ≤ List.length ss ≤ hi)%nat ∧ Forall (lang r') ss
  | RStar cs => Forall (λ c, in_cset cs c = true) s
  | RGroup _ r' => lang r' s
  end.

(** No part of the text is a time range. *)
Definition no_time_range {U : Unicode} (s : pystr) : Prop :=
  ∀ pre mid post, s = pre ++ mid ++ post → ¬ lang time_pattern mid.

(** A clock reading as it is written in an hours text: hour digits, a
    colon, two minute digits, white space, a suffix; and a range of two such
    readings around a dash. *)
Record clock_text := ClockText {
  hour_digits : pystr;
  minute_digits : pystr;
  gap : pystr;
  suffix : pystr;
}.

Definition clock_str (t : clock_text) : pystr :=
  hour_digits t ++ COLON :: minute_digits t ++ gap t ++ suffix t.

Definition range_str (t1 : clock_text) (g1 : pystr) (dash : N) (g2 : pystr)
    (t2 : clock_text) : pystr :=
  clock_str t1 ++ g1 ++ dash :: g2 ++ clock_str t2.

(** The suffix is written in small letters. *)
Definition lowercase_clock {U : Unicode} (t : clock_text) : Prop :=
  Forall (λ c, isdecimal c = true) (hour_digits t) ∧
  List.length (minute_digits t) = 2%nat ∧
  Forall (λ c, isdecimal c = true) (minute_digits t) ∧
  all_space (gap t) ∧
  suffix t ∈ [ py "am"; py "pm" ].

(** The suffix is written in any casing, or there is none. *)
Definition clock_reading {U : Unicode} (t : clock_text) : Prop :=
  Forall (λ c, isdecimal c = true) (hour_digits t) ∧
  List.length (minute_digits t) = 2%nat ∧
  Forall (λ c, isdecimal c = true) (minute_digits t) ∧
  all_space (gap t) ∧
  suffix t ∈ [] :: suffixes AM ++ suffixes PM.

(** Every twelve-hour token, checked one by one. *)
Definition all_tokens_parse {U : Unicode} : bool :=
  forallb (λ p,
    forallb (λ leading_zero,
      forallb (λ h,
        forallb (λ m,
          forallb (λ gap,
            forallb (λ suffix,
              parses_to (token_12h leading_zero h m gap suffix) (hour_24 p h) m)
              (suffixes p))
            [ []; [32] ])
          (N.of_nat <$> seq 0 60))
        (N.of_nat <$> seq 1 12))
      [ false; true ])
    [ AM; PM ].

(** The records the loop copies: the open ones, in order. *)
Definition open_dicts {U : Unicode} (h : store) (query_time : time) (query_day : pystr)
    (items : list loc) : list (gmap pystr value) :=
  omap (λ p, if place_is_open h query_time query_day p then dict_at h p
             else None) items.

(** Decidable facts about concrete data are settled by evaluation. *)
Ltac by_computation := apply (bool_decide_unpack _); vm_compute; exact I.

(** ** Notions used to state further properties *)

(** A time of day that [datetime.time] accepts. *)
Definition valid_time (t : time) : Prop := hour t ≤ 23 ∧ minute t ≤ 59.

(** Twenty-four-hour tokens: one or two hour digits, a colon and two minute
    digits. *)
Definition token_24h (leading_zero : bool) (h m : N) : pystr :=
  hour_text leading_zero h ++ py ":" ++ minute_text m.

Definition parses_as {U : Unicode} (token : pystr) (expected : result time)
  : bool :=
  match parse_time token, expected with
  | Ok t, Ok t' => (hour t =? hour t') && (minute t =? minute t')
  | Raise ValueError, Raise ValueError => true
  | _, _ => false
  end.

(** Number of commas in a text. *)
Definition commas (s : pystr) : nat :=
  List.length (List.filter (N.eqb COMMA) s).

(** * [filter_response.py]

    The loop of [filter_response] over the places of the decoded document.
    Reading the input file, decoding it and writing the output file are not
    modelled; an exception raised in the loop is what makes the function
    print the error and return [False] without writing anything. *)

Definition TAGS : pystr := py "tags".
Definition DISTANCE : pystr := py "distance".

Definition excluded_tags : list pystr :=
  [ py "lodging"; py "selfcare"; py "night_club" ].

(** [fields_to_keep.items()], in the order of the literal. *)
Definition fields_to_keep : list (pystr * pystr) :=
  [ (py "place_id", py "id");
    (py "latitude", py "lat");
    (py "longitude", py "lon");
    (py "name", py "name");
    (py "hours", py "hours");
    (py "summary", py "detailed_description");
    (py "tags", py "tags");
    (py "distance", py "distance") ].

(** Values that can be members of a [set] or keys of a [dict]. *)
Definition hashable (v : value) : bool :=
  match v with
  | VList _ | VDict _ => false
  | VNone | VBool _ | VInt _ | VFloat _ | VStr _ => true
  end.

(** [set(v)]: the members of the iterable [v]; [TypeError] when [v] cannot
    be iterated or a member cannot be hashed.  The members are kept as a
    list, since only membership is asked of the set. *)
Definition py_set (v : value) : result (list value) :=
  members ← iterate v;
  if forallb hashable members then Ok members else Raise TypeError.

(** [place_tags.intersection(excluded_tags)] is not empty: only a string
    equals a string. *)
Definition meets_excluded (place_tags : list value) : bool :=
  existsb (λ v, match v with
                | VStr s => existsb (eqb_str s) excluded_tags
                | _ => false
                end) place_tags.

(** One turn of the loop over [fields_to_keep.items()]. *)
Definition keep_field (place filtered_place : gmap pystr value)
    (item : pystr * pystr) : gmap pystr value :=
  let original_field := fst item in
  let new_field := snd item in
  match place !! original_field with
  | Some v => <[new_field := v]> filtered_place
  | None =>
      if eqb_str new_field DISTANCE then <[new_field := VNone]> filtered_place
      else filtered_place
  end.

(** The filtered place built for one place. *)
Definition keep_fields (place : gmap pystr value) : gmap pystr value :=
  foldl (keep_field place) ∅ fields_to_keep.

(** The loop over [data["places"]], from the given [filtered_places] and
    [removed_count]. *)
Fixpoint filter_loop (places : list (gmap pystr value))
    (filtered_places : list (gmap pystr value)) (removed_count : nat)
  : result (list (gmap pystr value) * nat) :=
  match places with
  | [] => Ok (filtered_places, removed_count)
  | place :: rest =>
      place_tags ← py_set (default (VList []) (place !! TAGS));
      if meets_excluded place_tags then
        filter_loop rest filtered_places (S removed_count)
      else
        filter_loop rest (filtered_places ++ [keep_fields place]) removed_count
  end.

Definition filter_places (places : list (gmap pystr value))
  : result (list (gmap pystr value) * nat) :=
  filter_loop places [] 0.

(** A place whose tags, when present, are a list of strings, and whether
    one of them is excluded. *)
Definition string_tags (place : gmap pystr value) : Prop :=
  ∀ v, place !! TAGS = Some v → ∃ tags : list pystr, v = VList (VStr <$> tags).

Definition tags_of (place : gmap pystr value) : list pystr :=
  match place !! TAGS with
  | Some (VList l) =>
      omap (λ v, match v with VStr s => Some s | _ => None end) l
  | _ => []
  end.

Definition is_excluded (place : gmap pystr value) : bool :=
  existsb (λ tag, existsb (eqb_str tag) excluded_tags) (tags_of place).

(** * [tag_analyzer.py]

    The loop of [analyze_tags] over the places of the decoded document and
    the analysis it returns.  An exception is what makes the function print
    the error and return [None]. *)

(** Numbers as [==] compares them: a Boolean is 0 or 1, an integer is
    itself, a float is [m * 2 ^ e], an infinity or not a number. *)
Inductive number :=
| Finite (m e : Z)
| Infinite (negative : bool)
| NotANumber.

Definition number_of (v : value) : option number :=
  match v with
  | VBool b => Some (Finite (if b then 1 else 0) 0)
  | VInt z => Some (Finite z 0)
  | VFloat (S754_zero _) => Some (Finite 0 0)
  | VFloat (S754_finite s m e) =>
      Some (Finite (if s then Z.neg m else Z.pos m) e)
  | VFloat (S754_infinity s) => Some (Infinite s)
  | VFloat S754_nan => Some NotANumber
  | VNone | VStr _ | VList _ | VDict _ => None
  end.

Definition number_eqb (a b : number) : bool :=
  match a, b with
  | Finite m1 e1, Finite m2 e2 =>
      let k := Z.min e1 e2 in
      (m1 * 2 ^ (e1 - k) =? m2 * 2 ^ (e2 - k))%Z
  | Infinite s1, Infinite s2 => Bool.eqb s1 s2
  | _, _ => false
  end.

(** Whether two hashable values are the same [dict] key: the same object,
    or equal objects.  The decoder hands out one and the same object for
    every [NaN] of the document, so two of them are one key although the
    numbers are not equal. *)
Definition key_eqb (a b : value) : bool :=
  match a, b with
  | VNone, VNone => true
  | VStr s, VStr t => eqb_str s t
  | VFloat S754_nan, VFloat S754_nan => true
  | _, _ =>
      match number_of a, number_of b with
      | Some x, Some y => number_eqb x y
      | _, _ => false
      end
  end.

(** A [Counter] as its items in insertion order; counting one more
    element. *)
Fixpoint count_element (counts : list (value * nat)) (elem : value)
  : list (value * nat) :=
  match counts with
  | [] => [(elem, 1%nat)]
  | (key, n) :: rest =>
      if key_eqb key elem then (key, S n) :: rest
      else (key, n) :: count_element rest elem
  end.

(** [Counter(iterable)] *)
Definition Counter (iterable : list value) : result (list (value * nat)) :=
  if forallb hashable iterable then Ok (foldl count_element [] iterable)
  else Raise TypeError.

(** [counter[key]]: zero for a key that was never counted. *)
Definition count_of (counts : list (value * nat)) (key : value) : nat :=
  match List.find (λ item, key_eqb (fst item) key) counts with
  | Some item => snd item
  | None => 0%nat
  end.

Record analysis := Analysis {
  tag_counts : list (value * nat);
  total_places : nat;
  places_with_tags : nat;
  places_without_tags : nat;
  total_tags : nat;
  unique_tags : nat;
}.

(** The loop over [data["places"]]. *)
Fixpoint collect_tags (places : list (gmap pystr value))
    (all_tags : list value) (places_with_tags places_without_tags : nat)
  : result (list value * nat * nat) :=
  match places with
  | [] => Ok (all_tags, places_with_tags, places_without_tags)
  | place :: rest =>
      match place !! TAGS with
      | Some tags =>
          if truthy tags then
            members ← iterate tags;
            collect_tags rest (all_tags ++ members) (S places_with_tags)
              places_without_tags
          else
            collect_tags rest all_tags places_with_tags
              (S places_without_tags)
      | None =>
          collect_tags rest all_tags places_with_tags (S places_without_tags)
      end
  end.

Definition analyze_tags (places : list (gmap pystr value)) : result analysis :=
  collected ← collect_tags places [] 0 0;
  counts ← Counter (fst (fst collected));
  Ok {| tag_counts := counts;
        total_places := List.length places;
        places_with_tags := snd (fst collected);
        places_without_tags := snd collected;
        total_tags := List.length (fst (fst collected));
        unique_tags := List.length counts |}.

(** The sum of the counts of a counter. *)
Definition total_count (counts : list (value * nat)) : nat :=
  foldr (λ item acc, (snd item + acc)%nat) 0%nat counts.

(** Equality of the triples the tag loop returns. *)
Ltac triple :=
  f_equal; apply pair_equal_spec; split;
  [apply pair_equal_spec; split|]; (done || lia).

(** * Properties *)

(** ** The database excerpt satisfies the laws *)

Ltac split_bool :=
  repeat match goal with
  | H : (_ || _) = true |- _ => apply orb_true_iff in H as [H|H]
  | H : (_ && _) = true |- _ => apply andb_true_iff in H as [? ?]
  | H : negb _ = true |- _ => apply negb_true_iff in H
  | H : (_ =? _) = true |- _ => apply N.eqb_eq in H
  | H : (_ =? _) = false |- _ => apply N.eqb_neq in H
  | H : (_ <=? _) = true |- _ => apply N.leb_le in H
  | H : (_ <=? _) = false |- _ => apply N.leb_gt in H
  end.

Lemma excerpt_space_not_decimal c :
  Excerpt.isspace c = true → Excerpt.decimal c = None.
Proof.
  unfold Excerpt.isspace, Excerpt.decimal. intros H.
  destruct ((0x660 <=? c) && (c <=? 0x669)) eqn:E1;
    [split_bool; lia|].
  destruct ((0xFF10 <=? c) && (c <=? 0xFF19)) eqn:E2;
    [split_bool; lia|]. done.
Qed.

Lemma excerpt_lower_nonempty c : 128 ≤ c → Excerpt.lower c ≠ [].
Proof. intros _. unfold Excerpt.lower. by repeat case_match. Qed.

Lemma excerpt_lower_latin c x :
  128 ≤ c → x ∈ Excerpt.lower c → x < 128 → x = 105 ∨ x = 107.
Proof.
  unfold Excerpt.lower. intros Hc Hx Hlt.
  repeat case_match; split_bool;
    repeat (apply elem_of_cons in Hx as [Hx|Hx]);
    try (by apply elem_of_nil in Hx); lia.
Qed.

#[global] Instance ucd_excerpt_laws : UnicodeLaws ucd_excerpt.
Proof.
  split.
  - apply excerpt_space_not_decimal.
  - apply excerpt_lower_nonempty.
  - apply excerpt_lower_latin.
Qed.

(** ** Literals *)

Lemma py_colon : py ":" = [COLON].
Proof. reflexivity. Qed.

Lemma py_closed : py "closed" = [99; 108; 111; 115; 101; 100].
Proof. reflexivity. Qed.

Lemma py_24_hours : py "24 hours" = [50; 52; 32; 104; 111; 117; 114; 115].
Proof. reflexivity. Qed.

Lemma py_open_24_hours :
  py "open 24 hours" = [111; 112; 101; 110; 32; 50; 52; 32; 104; 111; 117; 114; 115].
Proof. reflexivity. Qed.

(** ** Prefixes and substrings *)

Section StrFacts.

Lemma startswith_app p s : startswith p (p ++ s) = true.
Proof. induction p as [|a p IH]; simpl; [done|]. by rewrite N.eqb_refl. Qed.

Lemma startswith_spec p s : startswith p s = true ↔ ∃ r, s = p ++ r.
Proof.
  split.
  - revert s. induction p as [|a p IH]; intros s H; simpl in *.
    + by exists s.
    + destruct s as [|b s]; [done|].
      apply andb_true_iff in H as [Hab H]. apply N.eqb_eq in Hab as ->.
      destruct (IH _ H) as [r ->]. by exists r.
  - intros [r ->]. apply startswith_app.
Qed.

Lemma contains_startswith n s : startswith n s = true → contains n s = true.
Proof. intros H. destruct s; simpl in *; by rewrite H. Qed.

Lemma contains_spec n s :
  contains n s = true ↔ ∃ l r, s = l ++ n ++ r.
Proof.
  split.
  - induction s as [|c s IH]; simpl; intros H.
    + rewrite orb_false_r in H. apply startswith_spec in H as [r Hr].
      by exists [], r.
    + apply orb_true_iff in H as [H|H].
      * apply startswith_spec in H as [r Hr]. by exists [], r.
      * destruct (IH H) as (l & r & ->). by exists (c :: l), r.
  - intros (l & r & ->). induction l as [|c l IH]; simpl.
    + apply contains_startswith, startswith_app.
    + by rewrite IH, orb_true_r.
Qed.

Lemma startswith_nil_r p : startswith p [] = true → p = [].
Proof. by destruct p. Qed.

(** A prefix has all its characters in the text. *)
Lemma startswith_elem p s x : startswith p s = true → x ∈ p → x ∈ s.
Proof.
  intros [r ->]%startswith_spec Hx. apply elem_of_app. by left.
Qed.

End StrFacts.

(** ** Stripping *)

Section StripFacts.
Context {U : Unicode}.

Lemma lstrip_decompose s : ∃ w, s = w ++ lstrip s ∧ all_space w.
Proof.
  induction s as [|c s (w & Hw & Hsp)]; simpl.
  - exists []. split; [done | constructor].
  - destruct (isspace c) eqn:Hc.
    + exists (c :: w). split; [by rewrite <- app_comm_cons, <- Hw|].
      by constructor.
    + exists []. split; [done | constructor].
Qed.

Lemma lstrip_head s c r : lstrip s = c :: r → isspace c = false.
Proof.
  induction s as [|a s IH]; simpl; [done|].
  destruct (isspace a) eqn:Ha; [done|]. by intros [= <- _].
Qed.

Lemma lstrip_id c s : isspace c = false → lstrip (c :: s) = c :: s.
Proof. intros H. simpl. by rewrite H. Qed.

Lemma lstrip_app_space w s : all_space w → lstrip (w ++ s) = lstrip s.
Proof. induction 1 as [|c w Hc _ IH]; simpl; [done|]. by rewrite Hc. Qed.

Lemma lstrip_all_space w : all_space w → lstrip w = [].
Proof.
  intros H. rewrite <- (app_nil_r w). by rewrite lstrip_app_space.
Qed.

Lemma all_space_rev w : all_space w → all_space (rev w).
Proof. unfold all_space. rewrite !Forall_forall. intros H x Hx.
  apply H. by apply list_elem_of_In, in_rev, list_elem_of_In. Qed.

Lemma rstrip_decompose s : ∃ w, s = rstrip s ++ w ∧ all_space w.
Proof.
  unfold rstrip. destruct (lstrip_decompose (rev s)) as (w & Hw & Hsp).
  exists (rev w). split; [|by apply all_space_rev].
  rewrite <- rev_app_distr, <- Hw. by rewrite rev_involutive.
Qed.

Lemma rstrip_app_space s w : all_space w → rstrip (s ++ w) = rstrip s.
Proof.
  intros H. unfold rstrip. rewrite rev_app_distr.
  by rewrite lstrip_app_space by by apply all_space_rev.
Qed.

(** Text that ends in a character other than white space is not cut. *)
Lemma rstrip_snoc s c : isspace c = false → rstrip (s ++ [c]) = s ++ [c].
Proof.
  intros H. unfold rstrip. rewrite rev_app_distr. simpl. rewrite H.
  by rewrite <- (rev_involutive s) at 2.
Qed.

Lemma rstrip_cases s :
  rstrip s = [] ∨ ∃ r c, rstrip s = r ++ [c] ∧ isspace c = false.
Proof.
  unfold rstrip. destruct (lstrip (rev s)) as [|c r] eqn:E; [by left|].
  right. exists (rev r), c. split; [done|]. by eapply lstrip_head.
Qed.

Lemma strip_decompose s :
  ∃ w1 w2, s = w1 ++ strip s ++ w2 ∧ all_space w1 ∧ all_space w2.
Proof.
  unfold strip.
  destruct (rstrip_decompose s) as (w2 & H2 & Hsp2).
  destruct (lstrip_decompose (rstrip s)) as (w1 & H1 & Hsp1).
  exists w1, w2. split; [|done].
  rewrite H2 at 1. rewrite H1 at 1. by rewrite <- app_assoc.
Qed.

(** White space is left alone by the Basic Latin case mapping. *)
Lemma tolower_space c : isspace c = true → Ascii7.tolower c = c.
Proof.
  unfold isspace, Ascii7.tolower, Ascii7.isupper, Ascii7.isspace.
  intros H. destruct ((65 <=? c) && (c <=? 90)) eqn:E; [|done].
  destruct (c <? 128) eqn:E2.
  - apply andb_true_iff in E as [?%N.leb_le ?%N.leb_le].
    apply orb_true_iff in H as [H|H];
      apply andb_true_iff in H as [?%N.leb_le ?%N.leb_le]; lia.
  - apply andb_true_iff in E as [?%N.leb_le ?%N.leb_le].
    apply N.ltb_ge in E2. lia.
Qed.

End StripFacts.

(** ** Containment in any casing *)

Section Containment.
Context {U : Unicode} {UL : UnicodeLaws U}.

Lemma startswith_skip_r n z w y :
  last n = Some z → z ∉ w → startswith n (y ++ w) = startswith n y.
Proof.
  revert y. induction n as [|a n IH]; intros y Hz Hw; [done|].
  destruct y as [|b y].
  - simpl (startswith _ []). apply not_true_is_false. intros H.
    apply Hw. eapply startswith_elem; [exact H|].
    by apply last_Some_elem_of.
  - simpl. destruct n as [|a' n]; [done|]. f_equal. by apply IH.
Qed.

Lemma contains_skip_r n z w y :
  last n = Some z → z ∉ w → contains n (y ++ w) = contains n y.
Proof.
  intros Hz Hw. induction y as [|b y IH].
  - simpl app. destruct (contains n w) eqn:E, (contains n []) eqn:E'; try done.
    + apply contains_spec in E as (l & r & ->). destruct Hw.
      apply elem_of_app. right. apply elem_of_app. left.
      by apply last_Some_elem_of.
    + simpl in E'. rewrite orb_false_r in E'.
      apply startswith_nil_r in E' as ->. done.
  - simpl. rewrite IH. f_equal.
    by apply (startswith_skip_r n z w (b :: y)).
Qed.

Lemma contains_skip_l a n w y :
  a ∉ w → contains (a :: n) (w ++ y) = contains (a :: n) y.
Proof.
  intros Hw. induction w as [|b w IH]; [done|].
  apply not_elem_of_cons in Hw as [Hab Hw].
  simpl app. change (contains (a :: n) (b :: w ++ y))
    with ((a =? b) && startswith n (w ++ y) || contains (a :: n) (w ++ y)).
  rewrite (proj2 (N.eqb_neq a b) Hab). simpl. by apply IH.
Qed.

Lemma ascii_fold_space w : all_space w → ascii_fold w = w.
Proof.
  induction 1 as [|c w Hc _ IH]; simpl; [done|].
  by rewrite tolower_space, IH.
Qed.

Lemma all_space_not_elem c w : isspace c = false → all_space w → c ∉ w.
Proof.
  intros Hc Hw Hin. unfold all_space in Hw. rewrite Forall_forall in Hw.
  specialize (Hw _ Hin). congruence.
Qed.

(** A needle that neither begins nor ends with white space occurs in the
    stripped text exactly when it occurs in the text. *)
Lemma icontains_strip a z n s :
  head n = Some a → last n = Some z →
  isspace a = false → isspace z = false →
  icontains n (strip s) = icontains n s.
Proof.
  intros Ha Hz Hsa Hsz. destruct n as [|a' n]; [done|]. injection Ha as ->.
  destruct (strip_decompose s) as (w1 & w2 & Hs & H1 & H2).
  unfold icontains. rewrite Hs at 2. unfold ascii_fold.
  rewrite !map_app. fold (ascii_fold w1) (ascii_fold w2) (ascii_fold (strip s)).
  rewrite (ascii_fold_space w1), (ascii_fold_space w2) by done.
  rewrite contains_skip_l by by apply all_space_not_elem.
  by rewrite (contains_skip_r _ z) by (done || by apply all_space_not_elem).
Qed.

Lemma plain_lt c : plain c = true → c < 128.
Proof.
  unfold plain. intros H.
  apply andb_true_iff in H as [H _]. apply andb_true_iff in H as [H _].
  by apply N.ltb_lt.
Qed.

(** Every character of the lower-case image of a character outside Basic
    Latin is other than [a]. *)
Lemma lower_piece_not_plain b c s a :
  128 ≤ c → plain a = true →
  a ∉ (if c =? CAPITAL_SIGMA then [handle_capital_sigma b s]
       else tolower_full c).
Proof.
  intros Hc Ha Hin. pose proof (plain_lt _ Ha) as Hlt.
  destruct (c =? CAPITAL_SIGMA) eqn:E.
  - apply list_elem_of_singleton in Hin. unfold handle_capital_sigma in Hin.
    repeat match type of Hin with context [if ?x then _ else _] =>
      destruct x end; unfold FINAL_SIGMA, SMALL_SIGMA in Hin; lia.
  - unfold tolower_full in Hin.
    destruct (c <? 128) eqn:E1; [apply N.ltb_lt in E1; lia|].
    destruct (c =? EN_DASH) eqn:E2.
    + apply list_elem_of_singleton in Hin. lia.
    + destruct (db_lower_latin c a Hc Hin Hlt) as [-> | ->]; done.
Qed.

Lemma lower_piece_nonempty b c s :
  (if c =? CAPITAL_SIGMA then [handle_capital_sigma b s]
   else tolower_full c) ≠ [].
Proof.
  destruct (c =? CAPITAL_SIGMA); [done|]. unfold tolower_full.
  destruct (c <? 128) eqn:E1; [done|]. destruct (c =? EN_DASH); [done|].
  apply db_lower_nonempty. by apply N.ltb_ge.
Qed.

Lemma startswith_not_head a n p s :
  a ∉ p → p ≠ [] → startswith (a :: n) (p ++ s) = false.
Proof.
  intros Ha Hp. destruct p as [|x p]; [done|]. simpl.
  apply not_elem_of_cons in Ha as [Hax _].
  by rewrite (proj2 (N.eqb_neq a x) Hax).
Qed.

Lemma startswith_lower n b s :
  Forall (λ c, plain c = true) n →
  startswith n (lower_from b s) = startswith n (ascii_fold s).
Proof.
  intros Hn. revert b s. induction Hn as [|a n Ha Hn IH]; intros b s; [done|].
  destruct s as [|c s]; [done|].
  destruct (c <? 128) eqn:Hc.
  - assert ((c =? CAPITAL_SIGMA) = false) as E.
    { apply N.eqb_neq. apply N.ltb_lt in Hc. unfold CAPITAL_SIGMA. lia. }
    simpl lower_from. rewrite E. unfold tolower_full. rewrite Hc.
    simpl. by rewrite IH.
  - apply N.ltb_ge in Hc. simpl lower_from.
    rewrite startswith_not_head;
      [|by apply lower_piece_not_plain|by apply lower_piece_nonempty].
    simpl. symmetry. apply andb_false_intro1, N.eqb_neq.
    pose proof (plain_lt _ Ha).
    unfold Ascii7.tolower, Ascii7.isupper.
    destruct ((65 <=? c) && (c <=? 90)) eqn:E; [|lia].
    apply andb_true_iff in E as [_ ?%N.leb_le]. lia.
Qed.

(** On needles of plain characters [needle in s.lower()] tests occurrence
    in any casing. *)
Lemma contains_lower n b s :
  Forall (λ c, plain c = true) n →
  contains n (lower_from b s) = icontains n s.
Proof.
  intros Hn. unfold icontains. revert b.
  induction s as [|c s IH]; intros b; [done|].
  change (contains n (ascii_fold (c :: s)))
    with (startswith n (ascii_fold (c :: s)) || contains n (ascii_fold s)).
  rewrite <- (startswith_lower n b) by done. rewrite <- (IH (c :: b)).
  destruct n as [|a n]; [by destruct (lower_from b (c :: s))|].
  apply Forall_cons in Hn as [Ha Hn].
  destruct (c <? 128) eqn:Hc.
  - assert ((c =? CAPITAL_SIGMA) = false) as E.
    { apply N.eqb_neq. apply N.ltb_lt in Hc. unfold CAPITAL_SIGMA. lia. }
    simpl lower_from. rewrite E. unfold tolower_full. rewrite Hc. done.
  - apply N.ltb_ge in Hc. simpl lower_from.
    rewrite startswith_not_head;
      [|by apply lower_piece_not_plain|by apply lower_piece_nonempty].
    rewrite contains_skip_l by by apply lower_piece_not_plain. done.
Qed.

End Containment.

(** ** The evaluator on well-formed places *)

Section EvaluatorFacts.
Context {U : Unicode}.

Lemma time_le_trans a b c :
  time_le a b = true → time_le b c = true → time_le a c = true.
Proof.
  unfold time_le. intros H1 H2.
  destruct (N.ltb_spec (hour a) (hour b)), (N.ltb_spec (hour b) (hour c)),
    (N.eqb_spec (hour a) (hour b)), (N.eqb_spec (hour b) (hour c)),
    (N.leb_spec (minute a) (minute b)), (N.leb_spec (minute b) (minute c));
    simpl in *; try done; try lia;
    destruct (N.ltb_spec (hour a) (hour c)), (N.eqb_spec (hour a) (hour c)),
      (N.leb_spec (minute a) (minute c)); simpl; try done; lia.
Qed.

Lemma any_range_spec query_time time_ranges :
  any_range query_time time_ranges = true ↔
  ∃ range, range ∈ time_ranges ∧ within query_time range = true.
Proof.
  induction time_ranges as [|r rs IH]; simpl.
  - split; [done|]. intros (? & []%elem_of_nil & _).
  - destruct (within query_time r) eqn:E.
    + split; [|done]. intros _. exists r. split; [left|done].
    + rewrite IH. split.
      * intros (x & Hx & Hw). exists x. split; [by right|done].
      * intros (x & [->|Hx]%elem_of_cons & Hw); [congruence|by exists x].
Qed.

Lemma fmap_VStr_inj (l l' : list pystr) : VStr <$> l = VStr <$> l' → l = l'.
Proof.
  revert l'. induction l as [|x l IH]; intros [|y l']; simpl; try done.
  intros [= -> H]. f_equal. by apply IH.
Qed.

Lemma find_day_hours_entries prefix entries :
  find_day_hours prefix (VStr <$> entries)
  = Ok (List.find (startswith prefix) entries).
Proof.
  induction entries as [|e es IH]; simpl; [done|].
  by destruct (startswith prefix e).
Qed.

Lemma day_entry_first query_day entries entry :
  day_entry query_day entries = Some entry ↔
  first_day_entry query_day entries entry.
Proof.
  unfold day_entry, first_day_entry. split.
  - induction entries as [|e es IH]; simpl; [done|].
    destruct (startswith _ e) eqn:E.
    + intros [= ->]. exists [], es. split; [done|]. split; [done|constructor].
    + intros (before & after & -> & Hs & Hb)%IH.
      exists (e :: before), after. split; [done|]. split; [done|].
      by constructor.
  - intros (before & after & -> & Hs & Hb).
    induction Hb as [|e before He _ IH]; simpl.
    + by rewrite Hs.
    + by rewrite He.
Qed.

Lemma day_entry_nonempty query_day entries entry :
  day_entry query_day entries = Some entry → entry ≠ [].
Proof.
  intros (_ & H)%find_some ->. rewrite py_colon in H.
  by destruct query_day.
Qed.

(** On a place whose [hours] is a list of strings the evaluator returns,
    and its answer is the scan of the ranges parsed from the first entry
    of the queried day. *)
Lemma is_place_open_entries place entries query_time query_day :
  place !! HOURS = Some (VList (VStr <$> entries)) →
  is_place_open place query_time query_day
  = Ok (match day_entry query_day entries with
        | Some entry => any_range query_time (parse_hours_string entry)
        | None => false
        end).
Proof.
  intros H. unfold is_place_open. rewrite H.
  destruct entries as [|e es]; [done|].
  change (truthy _) with true. cbn [negb iterate].
  unfold mbind, result_bind. rewrite find_day_hours_entries.
  fold (day_entry query_day (e :: es)).
  destruct (day_entry query_day (e :: es)) as [entry|] eqn:E; [|done].
  apply day_entry_nonempty in E. by destruct entry.
Qed.

Lemma well_formed_place_with_hours entries :
  well_formed (place_with_hours entries).
Proof.
  intros v. unfold place_with_hours. rewrite lookup_singleton_eq.
  intros [= <-]. by eexists.
Qed.

Lemma well_formed_no_hours place : place !! HOURS = None → well_formed place.
Proof. intros H v. by rewrite H. Qed.

Lemma is_place_open_no_hours place query_time query_day :
  place !! HOURS = None → is_place_open place query_time query_day = Ok false.
Proof. intros H. unfold is_place_open. by rewrite H. Qed.

End EvaluatorFacts.

(** ** Closed days and days open around the clock *)

Section SpecialCases.
Context {U : Unicode} {UL : UnicodeLaws U}.

Lemma plain_closed : Forall (λ c, plain c = true) (py "closed").
Proof. rewrite py_closed. repeat constructor. Qed.

Lemma plain_24_hours : Forall (λ c, plain c = true) (py "24 hours").
Proof. rewrite py_24_hours. repeat constructor. Qed.

Lemma plain_open_24_hours : Forall (λ c, plain c = true) (py "open 24 hours").
Proof. rewrite py_open_24_hours. repeat constructor. Qed.

(** The three tests of [parse_hours_string], on the text as it was given. *)
Lemma closed_test s :
  contains (py "closed") (lower (strip s)) = icontains (py "closed") s.
Proof.
  unfold lower. rewrite contains_lower by apply plain_closed.
  by apply (icontains_strip 99 100).
Qed.

Lemma all_day_test s :
  contains (py "24 hours") (lower (strip s)) = icontains (py "24 hours") s.
Proof.
  unfold lower. rewrite contains_lower by apply plain_24_hours.
  by apply (icontains_strip 50 115).
Qed.

Lemma open_all_day_test s :
  contains (py "open 24 hours") (lower (strip s))
  = icontains (py "open 24 hours") s.
Proof.
  unfold lower. rewrite contains_lower by apply plain_open_24_hours.
  by apply (icontains_strip 111 115).
Qed.

(** C4: a schedule text in which "closed" occurs in any casing parses to no
    interval at all, whatever else it holds, and a place whose entry for the
    queried day is such a text is closed at every query time. *)
Theorem closed_text_has_no_interval (hours_str : pystr) :
  icontains (py "closed") hours_str = true →
  parse_hours_string hours_str = [] ∧
  ∀ place entries query_day query_time,
    place !! HOURS = Some (VList (VStr <$> entries)) →
    first_day_entry query_day entries hours_str →
    is_place_open place query_time query_day = Ok false.
Proof.
  intros H.
  assert (parse_hours_string hours_str = []) as Hp.
  { unfold parse_hours_string. by rewrite closed_test, H. }
  split; [done|]. intros place entries query_day query_time Hh He.
  rewrite (is_place_open_entries _ entries) by done.
  apply day_entry_first in He. by rewrite He, Hp.
Qed.

(** C3, as amended: a schedule text in which "24 hours" occurs in any
    casing, and "closed" in none, parses to the single interval from 00:00
    to 23:59. *)
Theorem all_day_text_has_one_interval (hours_str : pystr) :
  icontains (py "24 hours") hours_str = true →
  icontains (py "closed") hours_str = false →
  parse_hours_string hours_str = [(Time 0 0, Time 23 59)].
Proof.
  intros H24 Hc. unfold parse_hours_string.
  by rewrite closed_test, Hc, all_day_test, H24.
Qed.

End SpecialCases.

Lemma closed_text_has_no_interval_witness :
  icontains (py "closed") (py "Temporarily CLOSED, was 9:00 AM – 5:00 PM") = true
  ∧ @parse_hours_string ucd_excerpt
      (py "Temporarily CLOSED, was 9:00 AM – 5:00 PM") = [].
Proof.
  split; [reflexivity|].
  apply (closed_text_has_no_interval (U := ucd_excerpt)). reflexivity.
Defined.

Lemma all_day_text_has_one_interval_witness :
  @parse_hours_string ucd_excerpt (py "Open 24 Hours")
  = [(Time 0 0, Time 23 59)].
Proof.
  apply (all_day_text_has_one_interval (U := ucd_excerpt)); reflexivity.
Defined.

(** C3, as stated, fails: this text holds "24 hours" and parses to no
    interval, because it also holds "closed". *)
Lemma all_day_text_closed_example :
  icontains (py "24 hours") (py "Open 24 hours, lobby closed") = true
  ∧ @parse_hours_string ucd_excerpt (py "Open 24 hours, lobby closed") = []
  ∧ @parse_hours_string ucd_excerpt (py "Open 24 hours, lobby closed")
    ≠ [(Time 0 0, Time 23 59)].
Proof. split; [reflexivity|]. split; [reflexivity|]. discriminate. Qed.

(** ** The open/closed decision *)

Section Decision.
Context {U : Unicode}.

Lemma within_ordered query_time range :
  within query_time range = true → time_le (fst range) (snd range) = true.
Proof.
  unfold within. intros [H1 H2]%andb_true_iff. by eapply time_le_trans.
Qed.

Lemma any_range_ordered query_time time_ranges :
  any_range query_time time_ranges
  = any_range query_time
      (List.filter (λ range, time_le (fst range) (snd range)) time_ranges).
Proof.
  induction time_ranges as [|r rs IH]; simpl; [done|].
  destruct (within query_time r) eqn:E.
  - rewrite (within_ordered _ _ E). simpl. by rewrite E.
  - destruct (time_le (fst r) (snd r)); simpl; [by rewrite E|done].
Qed.

(** C2: on a well-formed place the evaluator returns, and it returns true
    exactly when the place has a non-empty [hours] list with an entry for the
    queried day and the query time lies, bounds included, in one of the
    intervals parsed from the first such entry.  A place without hours, with
    an empty list or with no entry for the day is closed, and a place open on
    Monday from 9:00 AM to 5:00 PM is open at both bounds and closed one
    minute after the second. *)
Theorem is_place_open_iff :
  (∀ place query_time query_day,
     well_formed place →
     (∃ answer, is_place_open place query_time query_day = Ok answer) ∧
     (is_place_open place query_time query_day = Ok true ↔
      ∃ entries entry range,
        place !! HOURS = Some (VList (VStr <$> entries)) ∧
        entries ≠ [] ∧
        first_day_entry query_day entries entry ∧
        range ∈ parse_hours_string entry ∧
        time_le (fst range) query_time = true ∧
        time_le query_time (snd range) = true)) ∧
  (∀ place query_time query_day,
     place !! HOURS = None →
     is_place_open place query_time query_day = Ok false) ∧
  (∀ place query_time query_day,
     place !! HOURS = Some (VList []) →
     is_place_open place query_time query_day = Ok false) ∧
  (∀ place entries query_time query_day,
     place !! HOURS = Some (VList (VStr <$> entries)) →
     Forall (λ e, startswith (query_day ++ py ":") e = false) entries →
     is_place_open place query_time query_day = Ok false) ∧
  open_at (place_with_hours [py "Monday: 9:00 AM – 5:00 PM"])
    (py "9:00 AM") (py "Monday") = Ok true ∧
  open_at (place_with_hours [py "Monday: 9:00 AM – 5:00 PM"])
    (py "5:00 PM") (py "Monday") = Ok true ∧
  open_at (place_with_hours [py "Monday: 9:00 AM – 5:00 PM"])
    (py "5:01 PM") (py "Monday") = Ok false.
Proof.
  split; [|split; [|split; [|split]]].
  - intros place query_time query_day Hwf.
    destruct (place !! HOURS) as [v|] eqn:Hv.
    + destruct (Hwf v Hv) as [entries ->].
      rewrite (is_place_open_entries _ entries) by done.
      split; [by eexists|]. split.
      * intros [= Hopen].
        destruct (day_entry query_day entries) as [entry|] eqn:He; [|done].
        apply any_range_spec in Hopen as (range & Hin & Hw).
        apply andb_true_iff in Hw as [H1 H2].
        exists entries, entry, range. split; [done|].
        split; [by intros ->|]. by rewrite <- day_entry_first.
      * intros (entries' & entry & range & [= E] & _ & He & Hin & H1 & H2).
        apply fmap_VStr_inj in E as <-.
        apply day_entry_first in He. rewrite He. f_equal.
        apply any_range_spec. exists range. split; [done|].
        unfold within. by rewrite H1, H2.
    + rewrite is_place_open_no_hours by done. split; [by eexists|].
      split; [done|]. by intros (? & ? & ? & ? & _).
  - apply @is_place_open_no_hours.
  - intros place query_time query_day H.
    by rewrite (is_place_open_entries _ []).
  - intros place entries query_time query_day H Hno.
    rewrite (is_place_open_entries _ entries) by done.
    destruct (day_entry query_day entries) as [entry|] eqn:He; [|done].
    apply find_some in He as [Hin He]. rewrite Forall_forall in Hno.
    apply list_elem_of_In in Hin. specialize (Hno _ Hin). congruence.
  - repeat split; vm_compute; reflexivity.
Qed.

(** C8: the evaluator tests an interval by [open <= t <= close] alone, so
    an interval that opens later than it closes holds no query time and
    never makes a place open; the overnight text "10:00 PM – 2:00 AM" parses
    to such an interval, 22:00 to 02:00, and a place with only that entry for
    the day is closed at every query time. *)
Theorem backwards_interval_never_open :
  (∀ query_time open_time close_time,
     within query_time (open_time, close_time)
     = time_le open_time query_time && time_le query_time close_time) ∧
  (∀ query_time open_time close_time,
     time_le open_time close_time = false →
     within query_time (open_time, close_time) = false) ∧
  (∀ query_time time_ranges,
     any_range query_time time_ranges
     = any_range query_time
         (List.filter (λ range, time_le (fst range) (snd range)) time_ranges)) ∧
  parse_hours_string (py "10:00 PM – 2:00 AM") = [(Time 22 0, Time 2 0)] ∧
  time_le (Time 22 0) (Time 2 0) = false ∧
  (∀ query_time,
     is_place_open (place_with_hours [py "Friday: 10:00 PM – 2:00 AM"])
       query_time (py "Friday") = Ok false).
Proof.
  split; [done|]. split.
  { intros query_time o c H.
    destruct (within query_time (o, c)) eqn:E; [|done].
    apply within_ordered in E. simpl in E. congruence. }
  split; [apply any_range_ordered|].
  split; [vm_compute; reflexivity|]. split; [done|].
  intros query_time.
  rewrite (is_place_open_entries _ [py "Friday: 10:00 PM – 2:00 AM"])
    by (vm_compute; reflexivity).
  replace (day_entry _ _) with (Some (py "Friday: 10:00 PM – 2:00 AM"))
    by (vm_compute; reflexivity).
  replace (parse_hours_string _) with [(Time 22 0, Time 2 0)]
    by (vm_compute; reflexivity).
  rewrite any_range_ordered. done.
Qed.

End Decision.

(** ** Day and time normalisation *)

Section Normalisation.
Context {U : Unicode}.

Lemma day_mapping_lookup token name :
  day_mapping !! token = Some name ↔ (token, name) ∈ day_mapping_items.
Proof.
  unfold day_mapping. symmetry. apply elem_of_list_to_map. by_computation.
Qed.

Lemma day_mapping_tokens token name :
  (token, name) ∈ day_mapping_items ↔
  name ∈ day_names ∧ token ∈ day_tokens name.
Proof.
  split.
  - intros H. unfold day_mapping_items in H.
    repeat (apply elem_of_cons in H as [[= -> ->]|H]);
      try (split; by_computation).
    by apply elem_of_nil in H.
  - intros [Hn Ht]. unfold day_names in Hn.
    repeat (apply elem_of_cons in Hn as [->|Hn]);
      try (by apply elem_of_nil in Hn);
      unfold day_tokens in Ht;
      repeat (apply elem_of_cons in Ht as [->|Ht]);
      try (by apply elem_of_nil in Ht); by_computation.
Qed.

(** On Basic Latin text [lower] is the Basic Latin case mapping. *)
Lemma lower_from_ascii before s :
  Forall (λ c, c < 128) s → lower_from before s = ascii_fold s.
Proof.
  intros H. revert before.
  induction H as [|c s Hc _ IH]; intros before; simpl; [done|].
  assert ((c =? CAPITAL_SIGMA) = false) as ->
    by (apply N.eqb_neq; unfold CAPITAL_SIGMA; lia).
  unfold tolower_full. rewrite (proj2 (N.ltb_lt _ _) Hc). simpl.
  by rewrite IH.
Qed.

Lemma ascii_fold_ascii s :
  Forall (λ c, c < 128) (ascii_fold s) → Forall (λ c, c < 128) s.
Proof.
  unfold ascii_fold. intros H. apply Forall_fmap in H.
  eapply Forall_impl; [exact H|]. intros c. simpl.
  unfold Ascii7.tolower, Ascii7.isupper.
  destruct ((65 <=? c) && (c <=? 90)) eqn:E; [|done].
  apply andb_true_iff in E as [_ ?%N.leb_le]. lia.
Qed.

Lemma strip_padded w1 w2 a s z :
  all_space w1 → all_space w2 → isspace a = false → isspace z = false →
  last (a :: s) = Some z →
  strip (w1 ++ (a :: s) ++ w2) = a :: s.
Proof.
  intros H1 H2 Ha Hz Hl. unfold strip.
  rewrite app_assoc, rstrip_app_space by done.
  apply last_Some in Hl as [l' Hl]. rewrite Hl, app_assoc.
  rewrite rstrip_snoc by done. rewrite <- app_assoc, <- Hl.
  rewrite lstrip_app_space by done. by apply lstrip_id.
Qed.

Lemma tolower_nonspace c :
  isspace (Ascii7.tolower c) = false → isspace c = false.
Proof.
  intros H. destruct (isspace c) eqn:E; [|done].
  rewrite (tolower_space _ E) in H. congruence.
Qed.

(** C6: [parse_day] succeeds exactly when the stripped, lower-cased token
    is a day's name or the first three letters of one, and its result is then
    that day's canonical name; on every other token it raises [ValueError].
    So a day's name or abbreviation is accepted in any casing and with white
    space around it: "MON", "Mon" and "monday" all give "Monday". *)
Theorem parse_day_spec :
  (∀ day_str name,
     parse_day day_str = Ok name ↔
     name ∈ day_names ∧ lower (strip day_str) ∈ day_tokens name) ∧
  (∀ day_str,
     (∀ name, name ∈ day_names → lower (strip day_str) ∉ day_tokens name) ↔
     parse_day day_str = Raise ValueError) ∧
  (∀ name token spelling w1 w2,
     name ∈ day_names → token ∈ day_tokens name →
     ascii_fold spelling = token → all_space w1 → all_space w2 →
     parse_day (w1 ++ spelling ++ w2) = Ok name) ∧
  parse_day (py "MON") = Ok (py "Monday") ∧
  parse_day (py "Mon") = Ok (py "Monday") ∧
  parse_day (py "monday") = Ok (py "Monday") ∧
  parse_day (py "Mo") = Raise ValueError ∧
  parse_day (py "Mondays") = Raise ValueError.
Proof.
  assert (∀ day_str name,
     parse_day day_str = Ok name ↔
     name ∈ day_names ∧ lower (strip day_str) ∈ day_tokens name) as Hok.
  { intros day_str name. rewrite <- day_mapping_tokens, <- day_mapping_lookup.
    unfold parse_day. destruct (day_mapping !! _); split; congruence. }
  split; [exact Hok|]. split; [|split].
  - intros day_str. split.
    + intros Hno. destruct (parse_day day_str) as [name|e] eqn:E.
      * apply Hok in E as [Hn Ht]. by destruct (Hno name Hn).
      * unfold parse_day in E. destruct (day_mapping !! _); [done|].
        by injection E as <-.
    + intros E name Hn Ht.
      assert (parse_day day_str = Ok name) as E' by by apply Hok.
      congruence.
  - intros name token spelling w1 w2 Hn Ht Hs H1 H2. apply Hok.
    split; [done|].
    assert (Forall (λ c, c < 128) token ∧
            ∃ a r z, token = a :: r ∧ last token = Some z ∧
                     isspace a = false ∧ isspace z = false) as [Hascii Hends].
    { unfold day_names in Hn.
      repeat (apply elem_of_cons in Hn as [->|Hn]);
        try (by apply elem_of_nil in Hn);
        unfold day_tokens in Ht;
        repeat (apply elem_of_cons in Ht as [->|Ht]);
        try (by apply elem_of_nil in Ht);
        (split; [vm_compute; repeat constructor|]);
        vm_compute; eexists _, _, _; repeat split. }
    destruct Hends as (a & r & z & Htok & Hlast & Ha & Hz).
    assert (strip (w1 ++ spelling ++ w2) = spelling) as ->.
    { destruct spelling as [|a' s']; [by rewrite <- Hs in Htok|].
      rewrite <- Hs in Htok, Hlast. unfold ascii_fold in Hlast.
      rewrite fmap_last in Hlast.
      destruct (last (a' :: s')) as [z'|] eqn:Hz'; [|done].
      injection Hlast as <-. injection Htok as <- _.
      apply (strip_padded w1 w2 a' s' z'); auto using tolower_nonspace. }
    unfold lower. rewrite lower_from_ascii; [by rewrite Hs|].
    apply ascii_fold_ascii. by rewrite Hs.
  - repeat split; vm_compute; reflexivity.
Qed.

End Normalisation.

Section TwelveHourClock.
Context {U : Unicode}.

Lemma all_tokens_parse_true : all_tokens_parse = true.
Proof. vm_compute. reflexivity. Qed.

Lemma parses_to_spec token h m :
  parses_to token h m = true → parse_time token = Ok (Time h m).
Proof.
  unfold parses_to. destruct (parse_time token) as [[h' m']|]; [|done].
  simpl. by intros [->%N.eqb_eq ->%N.eqb_eq]%andb_true_iff.
Qed.

Lemma in_range lo len (n : N) :
  (lo ≤ N.to_nat n < lo + len)%nat → In n (N.of_nat <$> seq lo len).
Proof.
  intros H. apply in_map_iff. exists (N.to_nat n).
  split; [apply N2Nat.id|]. by apply in_seq.
Qed.

(** C7: twelve-hour tokens denote the same time of day as their
    twenty-four-hour forms: "2:30 PM" and "14:30" parse alike, "12:00 AM" is
    00:00 and "12:00 PM" is 12:00; and on every well-formed twelve-hour token
    an AM hour of 12 becomes 0, a PM hour of 12 stays 12 and any other PM
    hour has 12 added, the minutes being kept. *)
Theorem parse_time_twelve_hour (p : period) (leading_zero : bool) (h m : N)
    (gap suffix : pystr) :
  1 ≤ h ≤ 12 → m ≤ 59 → gap ∈ [ []; [32] ] → suffix ∈ suffixes p →
  parse_time (token_12h leading_zero h m gap suffix)
  = Ok (Time (hour_24 p h) m) ∧
  hour_24 AM 12 = 0 ∧ hour_24 PM 12 = 12 ∧
  (h ≠ 12 → hour_24 PM h = h + 12 ∧ hour_24 AM h = h) ∧
  parse_time (py "2:30 PM") = parse_time (py "14:30") ∧
  parse_time (py "14:30") = Ok (Time 14 30) ∧
  parse_time (py "12:00 AM") = Ok (Time 0 0) ∧
  parse_time (py "12:00 PM") = Ok (Time 12 0).
Proof.
  intros Hh Hm Hgap Hsuffix. split.
  - apply parses_to_spec.
    pose proof all_tokens_parse_true as H. unfold all_tokens_parse in H.
    rewrite forallb_forall in H.
    assert (In p [AM; PM]) as Hp by (destruct p; simpl; auto).
    specialize (H _ Hp). rewrite forallb_forall in H.
    assert (In leading_zero [false; true]) as Hz
      by (destruct leading_zero; simpl; auto).
    specialize (H _ Hz). rewrite forallb_forall in H.
    specialize (H h (in_range 1 12 h ltac:(lia))).
    rewrite forallb_forall in H.
    specialize (H m (in_range 0 60 m ltac:(lia))).
    rewrite forallb_forall in H.
    specialize (H gap (proj1 (list_elem_of_In _ _) Hgap)).
    rewrite forallb_forall in H.
    exact (H suffix (proj1 (list_elem_of_In _ _) Hsuffix)).
  - split; [done|]. split; [done|]. split.
    + intros Hne. unfold hour_24.
      by rewrite (proj2 (N.eqb_neq h 12) Hne).
    + repeat split; vm_compute; reflexivity.
Qed.

End TwelveHourClock.

Lemma parse_time_twelve_hour_witness :
  @parse_time ucd_excerpt (py "07:05 pm") = Ok (Time 19 5).
Proof.
  apply (parse_time_twelve_hour (U := ucd_excerpt) PM true 7 5 [32] (py "pm")).
  - lia.
  - lia.
  - by_computation.
  - by_computation.
Defined.

(** ** The day prefix of an hours entry *)

Section DayPrefix.
Context {U : Unicode} {UL : UnicodeLaws U}.

Lemma startswith_sep n c a b :
  c ∉ n → startswith n (a ++ c :: b) = startswith n a.
Proof.
  revert a. induction n as [|x n IH]; intros a Hc; [done|].
  apply not_elem_of_cons in Hc as [Hcx Hc].
  destruct a as [|y a]; simpl.
  - apply andb_false_intro1, N.eqb_neq. congruence.
  - by rewrite IH.
Qed.

Lemma contains_sep n c a b :
  c ∉ n → contains n (a ++ c :: b) = contains n a || contains n b.
Proof.
  intros Hc. induction a as [|y a IH].
  - simpl app. change (contains n (c :: b))
      with (startswith n (c :: b) || contains n b).
    pose proof (startswith_sep n c [] b Hc) as E. simpl app in E.
    rewrite E. by destruct n.
  - simpl app. change (contains n (y :: a ++ c :: b))
      with (startswith n ((y :: a) ++ c :: b) || contains n (a ++ c :: b)).
    rewrite startswith_sep, IH by done. simpl. by rewrite orb_assoc.
Qed.

Lemma rstrip_all_space w : all_space w → rstrip w = [].
Proof.
  intros H. unfold rstrip. by rewrite lstrip_all_space by by apply all_space_rev.
Qed.

(** Text that ends in a character other than white space is its own
    right strip. *)
Lemma rstrip_ends_nonspace s z :
  last s = Some z → isspace z = false → rstrip s = s.
Proof. intros [r ->]%last_Some Hz. by apply rstrip_snoc. Qed.

Lemma rstrip_last s z : last (rstrip s) = Some z → isspace z = false.
Proof.
  destruct (rstrip_cases s) as [->|(r & c & -> & Hc)]; [done|].
  rewrite last_snoc. by intros [= <-].
Qed.

Lemma rstrip_app_l p s z :
  last p = Some z → isspace z = false → rstrip (p ++ s) = p ++ rstrip s.
Proof.
  intros Hl Hz. destruct (rstrip_decompose s) as (w & Hs & Hw).
  rewrite Hs at 1. rewrite app_assoc, rstrip_app_space by done.
  destruct (last (rstrip s)) as [c|] eqn:E.
  - apply (rstrip_ends_nonspace _ c).
    + rewrite last_app, E. done.
    + by eapply rstrip_last.
  - apply last_None in E. rewrite E, app_nil_r.
    by apply (rstrip_ends_nonspace _ z).
Qed.

Lemma strip_app_l a p s z :
  isspace a = false → last (a :: p) = Some z → isspace z = false →
  strip ((a :: p) ++ s) = (a :: p) ++ rstrip s.
Proof.
  intros Ha Hl Hz. unfold strip. rewrite (rstrip_app_l _ _ z) by done.
  by apply lstrip_id.
Qed.

Lemma strip_app_space_l w s : all_space w → strip (w ++ s) = strip s.
Proof.
  intros Hw. unfold strip.
  destruct (rstrip_cases s) as [E|(r & c & E & Hc)].
  - destruct (rstrip_decompose s) as (w' & Hs & Hw'). rewrite E in Hs.
    simpl in Hs. subst s. rewrite E, rstrip_all_space; [done|].
    by apply Forall_app.
  - destruct (rstrip_decompose s) as (w' & Hs & Hw').
    rewrite Hs at 1. rewrite app_assoc, rstrip_app_space by done.
    rewrite E, app_assoc, rstrip_snoc by done.
    rewrite <- app_assoc. by apply lstrip_app_space.
Qed.

Lemma split_nonempty sep s : split sep s ≠ [].
Proof.
  induction s as [|c s IH]; simpl; [done|].
  destruct (c =? sep); [done|]. by destruct (split sep s).
Qed.

Lemma split_app_l sep p s seg segs :
  sep ∉ p → split sep s = seg :: segs →
  split sep (p ++ s) = (p ++ seg) :: segs.
Proof.
  intros Hp Hs. induction p as [|c p IH]; simpl; [done|].
  apply not_elem_of_cons in Hp as [Hc Hp].
  rewrite (proj2 (N.eqb_neq c sep)) by congruence.
  by rewrite IH.
Qed.

Lemma space_not_decimal c : isspace c = true → isdecimal c = false.
Proof.
  unfold isspace, isdecimal, todecimal.
  destruct (c <? 128).
  - unfold Ascii7.isspace, Ascii7.todecimal. intros H.
    destruct ((48 <=? c) && (c <=? 57)) eqn:E; [|done].
    apply andb_true_iff in E as [?%N.leb_le ?%N.leb_le].
    apply orb_true_iff in H as [H|H];
      apply andb_true_iff in H as [?%N.leb_le ?%N.leb_le]; lia.
  - destruct (c =? EN_DASH); [done|]. intros H.
    by rewrite (db_space_not_decimal c H).
Qed.

(** A match of the time-range pattern begins with a digit. *)
Lemma match_here_time_pattern c s :
  isdecimal c = false → match_here time_pattern (c :: s) = None.
Proof.
  intros H. unfold match_here, time_pattern, time_token, digits_1_2.
  simpl. by rewrite H.
Qed.

Lemma re_search_skip p s :
  Forall (λ c, isdecimal c = false) p →
  re_search time_pattern (p ++ s) = re_search time_pattern s.
Proof.
  induction 1 as [|c p Hc _ IH]; [done|].
  simpl app. change (re_search time_pattern (c :: p ++ s))
    with (match_here time_pattern (c :: p ++ s)
          orelse re_search time_pattern (p ++ s)).
  by rewrite match_here_time_pattern.
Qed.

End DayPrefix.

Section DayPrefixParse.
Context {U : Unicode} {UL : UnicodeLaws U}.

Lemma icontains_prefix n p s :
  COLON ∉ n → icontains n p = false →
  icontains n (p ++ COLON :: s) = icontains n s.
Proof.
  intros Hn Hp. unfold icontains, ascii_fold in *.
  rewrite map_app. simpl map. change (Ascii7.tolower COLON) with COLON.
  by rewrite contains_sep, Hp.
Qed.

Lemma comma_not_space w : all_space w → COMMA ∉ w.
Proof. by apply all_space_not_elem. Qed.

Lemma any_range_existsb query_time time_ranges :
  any_range query_time time_ranges = existsb (within query_time) time_ranges.
Proof.
  induction time_ranges as [|r rs IH]; simpl; [done|].
  by destruct (within query_time r).
Qed.

(** A prefix that ends in a colon and holds no digit, no comma and none of
    the three key words does not change what is parsed. *)
Lemma parse_hours_string_prefix a p s :
  isspace a = false →
  Forall (λ c, isdecimal c = false) (a :: p) →
  COMMA ∉ a :: p →
  icontains (py "closed") (a :: p) = false →
  icontains (py "24 hours") (a :: p) = false →
  icontains (py "open 24 hours") (a :: p) = false →
  parse_hours_string ((a :: p) ++ COLON :: s) = parse_hours_string s.
Proof.
  intros Ha Hd Hc H1 H2 H3. unfold parse_hours_string.
  rewrite !closed_test, !all_day_test, !open_all_day_test.
  rewrite !icontains_prefix by (done || by_computation).
  destruct (icontains (py "closed") s); [done|].
  destruct (icontains (py "24 hours") s || icontains (py "open 24 hours") s);
    [done|].
  remember ((a :: p) ++ [COLON]) as x eqn:Hx.
  assert (∀ t, strip (x ++ t) = x ++ rstrip t) as Hstrip.
  { intros t. rewrite Hx.
    apply (strip_app_l a (p ++ [COLON]) t COLON); [done| |done].
    by rewrite last_cons, last_snoc. }
  assert (Forall (λ c, isdecimal c = false) x) as Hdx.
  { rewrite Hx. apply Forall_app. split; [done|]. by repeat constructor. }
  assert (COMMA ∉ x) as Hcx.
  { rewrite Hx. intros [?|?%list_elem_of_singleton]%elem_of_app; done. }
  replace ((a :: p) ++ COLON :: s) with (x ++ s)
    by (rewrite Hx; by rewrite <- app_assoc).
  clear Hx.
  rewrite Hstrip.
  destruct (lstrip_decompose (rstrip s)) as (w & Hw & Hsp).
  fold (strip s) in Hw. rewrite Hw.
  destruct (split COMMA (strip s)) as [|seg segs] eqn:E;
    [by apply split_nonempty in E|].
  rewrite app_assoc.
  rewrite (split_app_l COMMA (x ++ w) _ seg segs); [|  |done].
  2:{ intros [?|?]%elem_of_app; [done|]. by apply (comma_not_space w). }
  simpl. f_equal. unfold add_range. rewrite <- app_assoc, Hstrip.
  destruct (lstrip_decompose (rstrip (w ++ seg))) as (w' & Hw' & Hsp').
  fold (strip (w ++ seg)) in Hw'. rewrite Hw', strip_app_space_l by done.
  rewrite app_assoc, re_search_skip; [done|].
  apply Forall_app. split; [done|].
  eapply Forall_impl; [exact Hsp'|]. apply space_not_decimal.
Qed.

Lemma parse_hours_string_space w s :
  all_space w → parse_hours_string (w ++ s) = parse_hours_string s.
Proof.
  intros Hw. unfold parse_hours_string. by rewrite strip_app_space_l.
Qed.

Lemma parse_hours_string_day day s :
  day ∈ day_names →
  parse_hours_string (day ++ COLON :: s) = parse_hours_string s.
Proof.
  intros Hd. unfold day_names in Hd.
  repeat (apply elem_of_cons in Hd as [->|Hd]);
    try (by apply elem_of_nil in Hd);
    (apply parse_hours_string_prefix;
     [ reflexivity | vm_compute; repeat constructor | by_computation
     | reflexivity | reflexivity | reflexivity ]).
Qed.

Lemma parse_schedule_text day entry :
  day ∈ day_names → startswith (day ++ py ":") entry = true →
  parse_hours_string (schedule_text day entry) = parse_hours_string entry.
Proof.
  intros Hd [r ->]%startswith_spec. unfold schedule_text.
  rewrite drop_app_length. rewrite py_colon, <- app_assoc. simpl app.
  rewrite parse_hours_string_day by done.
  destruct r as [|c r]; [done|].
  assert (c = 32 ∨ c ≠ 32) as [->|Hc] by lia.
  - symmetry. apply (parse_hours_string_space [32]). by repeat constructor.
  - destruct c as [|c']; [done|]. 
    repeat (destruct c' as [c'|c'|]; try done).
Qed.

Lemma day_prefix_is_ignored_aux day :
  day ∈ day_names →
  (∀ s, parse_hours_string (day ++ py ": " ++ s) = parse_hours_string s) ∧
  (∀ s, parse_hours_string (day ++ py ":" ++ s) = parse_hours_string s).
Proof.
  intros Hd. split.
  - intros s. change (py ": " ++ s) with (COLON :: [32] ++ s).
    rewrite parse_hours_string_day by done.
    apply parse_hours_string_space. by repeat constructor.
  - intros s. by apply parse_hours_string_day.
Qed.

(** C9: for a canonical day name the parser reads the whole entry
    ["<Day>: <text>"] as it reads the text alone, so the evaluator, which
    parses the whole entry, agrees with the specification's evaluator, which
    parses the text after the prefix. *)
Theorem day_prefix_is_ignored (day : pystr) :
  day ∈ day_names →
  (∀ s, parse_hours_string (day ++ py ": " ++ s) = parse_hours_string s) ∧
  (∀ place entries query_time,
     place !! HOURS = Some (VList (VStr <$> entries)) →
     is_place_open place query_time day
     = Ok (is_place_open_spec (Some entries) query_time day)) ∧
  (∀ place query_time,
     place !! HOURS = None →
     is_place_open place query_time day
     = Ok (is_place_open_spec None query_time day)).
Proof.
  intros Hd. split; [|split].
  - by apply day_prefix_is_ignored_aux.
  - intros place entries query_time H.
    rewrite (is_place_open_entries _ entries) by done.
    unfold is_place_open_spec. destruct entries as [|e es]; [done|].
    destruct (day_entry day (e :: es)) as [entry|] eqn:E; [|done].
    apply find_some in E as [_ E].
    by rewrite parse_schedule_text, any_range_existsb.
  - intros place query_time H. by rewrite is_place_open_no_hours.
Qed.

End DayPrefixParse.

Lemma day_prefix_is_ignored_witness :
  py "Tuesday" ∈ day_names ∧
  @parse_hours_string ucd_excerpt (py "Tuesday: 9:00 AM – 5:00 PM")
  = @parse_hours_string ucd_excerpt (py "9:00 AM – 5:00 PM").
Proof.
  assert (py "Tuesday" ∈ day_names) as H by by_computation.
  split; [exact H|].
  apply (proj1 (day_prefix_is_ignored (U := ucd_excerpt) (py "Tuesday") H)
           (py "9:00 AM – 5:00 PM")).
Defined.

(** ** A split shift *)

Section SplitShift.
Context {U : Unicode} {UL : UnicodeLaws U}.

(** C1, as amended: the schedule text "11:00 AM – 2:00 PM, 5:00 – 9:00 PM"
    parses to two intervals, 11:00 to 14:00 and 05:00 to 21:00: the "5:00"
    carries no suffix of its own and is read as five in the morning, whatever
    the suffix at the other end of its range.  A place whose entry for the
    queried day is this text is therefore open at 1:00 PM and at 6:00 PM, and
    at 3:00 PM as well; it is closed just before 5:00 AM and just after
    9:00 PM. *)
Theorem split_shift_hours (day : pystr) (place : gmap pystr value)
    (entries : list pystr) :
  day ∈ day_names →
  place !! HOURS = Some (VList (VStr <$> entries)) →
  first_day_entry day entries
    (day ++ py ": " ++ py "11:00 AM – 2:00 PM, 5:00 – 9:00 PM") →
  parse_hours_string (py "11:00 AM – 2:00 PM, 5:00 – 9:00 PM")
  = [(Time 11 0, Time 14 0); (Time 5 0, Time 21 0)] ∧
  re_search time_pattern (py "5:00 – 9:00 PM")
  = Some [(2%nat, py "9:00 PM"); (1%nat, py "5:00 ")] ∧
  parse_time (py "5:00 ") = Ok (Time 5 0) ∧
  parse_time (py "9:00 PM") = Ok (Time 21 0) ∧
  (∀ query_time,
     is_place_open place query_time day
     = Ok (within query_time (Time 11 0, Time 14 0)
           || within query_time (Time 5 0, Time 21 0))) ∧
  parse_time (py "1:00 PM") = Ok (Time 13 0) ∧
  is_place_open place (Time 13 0) day = Ok true ∧
  parse_time (py "6:00 PM") = Ok (Time 18 0) ∧
  is_place_open place (Time 18 0) day = Ok true ∧
  parse_time (py "3:00 PM") = Ok (Time 15 0) ∧
  is_place_open place (Time 15 0) day = Ok true ∧
  is_place_open place (Time 4 59) day = Ok false ∧
  is_place_open place (Time 21 1) day = Ok false.
Proof.
  intros Hd Hh He.
  assert (parse_hours_string (py "11:00 AM – 2:00 PM, 5:00 – 9:00 PM")
          = [(Time 11 0, Time 14 0); (Time 5 0, Time 21 0)]) as Hp
    by (vm_compute; reflexivity).
  assert (∀ query_time,
     is_place_open place query_time day
     = Ok (within query_time (Time 11 0, Time 14 0)
           || within query_time (Time 5 0, Time 21 0))) as Hopen.
  { intros query_time. rewrite (is_place_open_entries _ entries) by done.
    apply day_entry_first in He. rewrite He.
    rewrite (proj1 (day_prefix_is_ignored_aux day Hd)), Hp.
    simpl. by destruct (within query_time (Time 11 0, Time 14 0)),
      (within query_time (Time 5 0, Time 21 0)). }
  split; [done|]. split; [vm_compute; reflexivity|].
  split; [vm_compute; reflexivity|]. split; [vm_compute; reflexivity|].
  split; [done|]. rewrite !Hopen.
  repeat split; vm_compute; reflexivity.
Qed.

End SplitShift.

Lemma split_shift_hours_witness :
  @is_place_open ucd_excerpt
    (place_with_hours
       [py "Sunday: Closed";
        py "Monday: 11:00 AM – 2:00 PM, 5:00 – 9:00 PM"])
    (Time 18 0) (py "Monday") = Ok true.
Proof.
  assert (py "Monday" ∈ day_names) as Hd by by_computation.
  assert (place_with_hours
            [py "Sunday: Closed";
             py "Monday: 11:00 AM – 2:00 PM, 5:00 – 9:00 PM"] !! HOURS
          = Some (VList (VStr <$>
              [py "Sunday: Closed";
               py "Monday: 11:00 AM – 2:00 PM, 5:00 – 9:00 PM"]))) as Hh
    by (vm_compute; reflexivity).
  assert (first_day_entry (py "Monday")
            [py "Sunday: Closed";
             py "Monday: 11:00 AM – 2:00 PM, 5:00 – 9:00 PM"]
            (py "Monday" ++ py ": "
               ++ py "11:00 AM – 2:00 PM, 5:00 – 9:00 PM")) as He.
  { exists [py "Sunday: Closed"], []. split; [vm_compute; reflexivity|].
    split; [vm_compute; reflexivity|].
    constructor; [vm_compute; reflexivity|constructor]. }
  pose proof (split_shift_hours (U := ucd_excerpt) _ _ _ Hd Hh He) as H.
  exact (proj1 (proj2 (proj2 (proj2 (proj2 (proj2 (proj2 (proj2
           (proj2 H))))))))).
Defined.

(** C1, as stated, fails: with the split-shift hours on Monday the command
    line's query for Monday at 3:00 PM answers open, not closed. *)
Lemma split_shift_open_at_3pm :
  @open_at ucd_excerpt
    (place_with_hours [py "Monday: 11:00 AM – 2:00 PM, 5:00 – 9:00 PM"])
    (py "3:00 PM") (py "Monday") = Ok true.
Proof. vm_compute. reflexivity. Qed.

(** ** The batch filter and the store *)

Section BatchFilter.
Context {U : Unicode}.

Lemma is_place_open_total place query_time query_day :
  well_formed place →
  ∃ answer, is_place_open place query_time query_day = Ok answer.
Proof.
  intros Hwf. destruct (place !! HOURS) as [v|] eqn:Hv.
  - destruct (Hwf v Hv) as [entries ->].
    rewrite (is_place_open_entries _ entries) by done. by eexists.
  - rewrite is_place_open_no_hours by done. by eexists.
Qed.

(** One turn of the loop on a store that holds the old objects, then the
    result list, then the copies made so far. *)
Lemma filter_step_run h acc cs query_time query_day p d :
  h !! p = Some (ODict d) → well_formed d →
  filter_step (List.length h) query_time query_day p (h ++ OList acc :: cs)
  = Ok ((),
        if place_is_open h query_time query_day p
        then h ++ OList (acc ++ [S (List.length h + List.length cs)])
               :: cs ++ [ODict (delete HOURS d)]
        else h ++ OList acc :: cs).
Proof.
  intros Hp Hwf. unfold filter_step, place_is_open, dict_at. rewrite Hp.
  assert ((h ++ OList acc :: cs) !! p = Some (ODict d)) as Hp'
    by by apply lookup_app_l_Some.
  unfold mbind, heapM_bind, load. rewrite Hp'.
  destruct (is_place_open_total d query_time query_day Hwf) as [b ->].
  simpl lift. destruct b; [|done].
  unfold dict_copy, mbind, heapM_bind, load_dict at 1. rewrite Hp'.
  unfold alloc. unfold dict_pop, mbind, heapM_bind, load_dict.
  rewrite lookup_app_r by done. rewrite Nat.sub_diag. simpl lookup.
  unfold update. unfold list_append, mbind, heapM_bind, load_list.
  rewrite insert_app_r_alt by done. rewrite Nat.sub_diag. simpl insert.
  rewrite <- (app_assoc h). simpl app.
  rewrite list_lookup_middle by done.
  unfold update. rewrite insert_app_r_alt by done. rewrite Nat.sub_diag.
  simpl. repeat f_equal. rewrite length_app. simpl. lia.
Qed.

Lemma for_each_filter_step h items query_time query_day :
  places_ok h items → ∀ acc cs,
  for_each (filter_step (List.length h) query_time query_day) items
    (h ++ OList acc :: cs)
  = Ok ((),
        h ++ OList (acc ++ seq (S (List.length h + List.length cs))
                      (List.length (open_dicts h query_time query_day items)))
          :: cs ++ ((λ d, ODict (delete HOURS d))
                      <$> open_dicts h query_time query_day items)).
Proof.
  induction 1 as [|p items (d & Hp & Hwf) _ IH]; intros acc cs.
  - simpl. by rewrite !app_nil_r.
  - simpl for_each. unfold mbind at 1, heapM_bind at 1.
    rewrite (filter_step_run h acc cs query_time query_day p d) by done.
    unfold open_dicts. simpl omap. fold (open_dicts h query_time query_day items).
    destruct (place_is_open h query_time query_day p) eqn:Eo.
    + rewrite IH. unfold dict_at. rewrite Hp. simpl.
      rewrite <- !app_assoc. simpl. rewrite length_app. simpl.
      repeat f_equal. lia.
    + by rewrite IH.
Qed.

Lemma open_dicts_filter h query_time query_day items :
  Some <$> open_dicts h query_time query_day items
  = dict_at h <$> List.filter (place_is_open h query_time query_day) items.
Proof.
  induction items as [|p items IH]; [done|].
  unfold open_dicts. simpl.
  fold (open_dicts h query_time query_day items).
  destruct (place_is_open h query_time query_day p) eqn:E; [|done].
  unfold place_is_open in E.
  destruct (dict_at h p) as [d|] eqn:Ed; [|done]. simpl.
  rewrite Ed. f_equal. exact IH.
Qed.

Lemma copies_lookup (h : store) (acc : list loc)
    (ds : list (gmap pystr value)) :
  dict_at (h ++ OList acc :: ((λ d, ODict (delete HOURS d)) <$> ds))
    <$> seq (S (List.length h)) (List.length ds)
  = (λ d, Some (delete HOURS d)) <$> ds.
Proof.
  apply list_eq. intros i. rewrite !list_lookup_fmap.
  destruct (decide (i < List.length ds)%nat) as [Hi|Hi].
  - rewrite lookup_seq_lt by done. simpl. unfold dict_at.
    rewrite lookup_app_r by lia.
    replace (S (List.length h + i) - List.length h)%nat with (S i) by lia.
    simpl. rewrite list_lookup_fmap.
    by destruct (lookup_lt_is_Some_2 ds i Hi) as [d ->].
  - rewrite lookup_seq_ge by lia. by rewrite lookup_ge_None_2 by lia.
Qed.

(** C5: on a list of well-formed place records the batch filter returns a
    new list that holds, in input order, one new record for each place the
    evaluator finds open and nothing else; each new record is the place's
    record without the [hours] key and with every other key as it was; no
    new record has an [hours] key; and every object the store held before,
    the input list and the place records among them, is still there
    unchanged. *)
Theorem filter_open_places_spec (h : store) (places : loc)
    (items : list loc) (query_time : time) (query_day : pystr) :
  h !! places = Some (OList items) →
  places_ok h items →
  ∃ open_places results h',
    filter_open_places places query_time query_day h = Ok (open_places, h') ∧
    h' !! open_places = Some (OList results) ∧
    h !! open_places = None ∧
    Forall (λ r, h !! r = None) results ∧
    NoDup results ∧
    dict_at h' <$> results
    = (λ p, delete HOURS <$> dict_at h p)
        <$> List.filter (place_is_open h query_time query_day) items ∧
    (∀ r d', r ∈ results → dict_at h' r = Some d' → d' !! HOURS = None) ∧
    (∀ i r p d d' key,
       results !! i = Some r →
       List.filter (place_is_open h query_time query_day) items !! i = Some p →
       dict_at h p = Some d → dict_at h' r = Some d' → key ≠ HOURS →
       d' !! key = d !! key) ∧
    (∀ l o, h !! l = Some o → h' !! l = Some o).
Proof.
  intros Hplaces Hok.
  set (ds := open_dicts h query_time query_day items).
  exists (List.length h), (seq (S (List.length h)) (List.length ds)),
    (h ++ OList (seq (S (List.length h)) (List.length ds))
       :: ((λ d, ODict (delete HOURS d)) <$> ds)).
  assert (dict_at
            (h ++ OList (seq (S (List.length h)) (List.length ds))
               :: ((λ d, ODict (delete HOURS d)) <$> ds))
            <$> seq (S (List.length h)) (List.length ds)
          = (λ p, delete HOURS <$> dict_at h p)
              <$> List.filter (place_is_open h query_time query_day) items)
    as Hcopies.
  { rewrite copies_lookup.
    pose proof (f_equal
                  (λ l : list (option (gmap pystr value)),
                     (λ o : option (gmap pystr value),
                        (delete HOURS : gmap pystr value → gmap pystr value)
                          <$> o) <$> l)
                  (open_dicts_filter h query_time query_day items)) as E.
    simpl in E.
    rewrite <- !list_fmap_compose in E. exact E. }
  split; [|split; [|split; [|split; [|split; [|split; [|split; [|split]]]]]]].
  - unfold filter_open_places, mbind, heapM_bind, alloc.
    unfold load_list. rewrite lookup_app_l_Some with (x := OList items) by done.
    pose proof (for_each_filter_step h items query_time query_day Hok [] [])
      as Hloop.
    simpl in Hloop. rewrite Nat.add_0_r in Hloop. rewrite Hloop. done.
  - by rewrite list_lookup_middle.
  - by apply lookup_ge_None_2.
  - apply Forall_forall. intros r [Hr _]%elem_of_seq.
    apply lookup_ge_None_2. lia.
  - apply NoDup_seq.
  - exact Hcopies.
  - intros r d' [i Hi]%list_elem_of_lookup Hd'.
    assert ((dict_at (h ++ OList (seq (S (List.length h)) (List.length ds))
               :: ((λ d, ODict (delete HOURS d)) <$> ds))
              <$> seq (S (List.length h)) (List.length ds)) !! i = Some (Some d'))
      as Hi' by by rewrite list_lookup_fmap, Hi; simpl; rewrite Hd'.
    rewrite copies_lookup, list_lookup_fmap in Hi'.
    destruct (ds !! i) as [d|]; [|done]. injection Hi' as <-.
    apply lookup_delete_eq.
  - intros i r p d d' key Hr Hp Hd Hd' Hkey.
    assert (Some (Some d') = Some (delete HOURS <$> Some d)) as E.
    { rewrite <- Hd, <- Hd'.
      rewrite <- (list_lookup_fmap_Some_2 _ _ _ _ Hr) at 1.
      rewrite Hcopies. by rewrite list_lookup_fmap, Hp. }
    injection E as ->. by apply lookup_delete_ne.
  - intros l o Hl. by apply lookup_app_l_Some.
Qed.

End BatchFilter.

(** ** Suffixes in small letters *)

Section Matcher.
Context {U : Unicode}.

Lemma strip_prefix_spec p s s' : strip_prefix p s = Some s' → s = p ++ s'.
Proof.
  revert s. induction p as [|a p IH]; intros s; simpl.
  - by intros [= ->].
  - destruct s as [|b s]; [done|]. destruct (N.eqb_spec a b); [|done].
    intros H. subst b. by rewrite (IH _ H).
Qed.

Lemma match_star_sound {A} cs (k : pystr → captures → option A) s m out :
  match_star cs k s m = Some out →
  ∃ s1 s2, s = s1 ++ s2 ∧ Forall (λ c, in_cset cs c = true) s1
           ∧ k s2 m = Some out.
Proof.
  induction s as [|c s IH]; simpl.
  - intros H. exists [], []. by repeat split.
  - destruct (in_cset cs c) eqn:Ec.
    + destruct (match_star cs k s m) as [out'|] eqn:E.
      * intros [= <-]. destruct (IH eq_refl) as (s1 & s2 & -> & H1 & H2).
        exists (c :: s1), s2. split; [done|]. split; [by constructor|done].
      * intros H. exists [], (c :: s). by repeat split.
    + intros H. exists [], (c :: s). by repeat split.
Qed.

Lemma match_rep_sound {A} (step : (pystr → captures → option A) →
                                  pystr → captures → option A)
    (L : pystr → Prop) :
  (∀ k s m out, step k s m = Some out →
     ∃ s1 s2 m', s = s1 ++ s2 ∧ L s1 ∧ k s2 m' = Some out) →
  ∀ hi lo k s m out,
    match_rep step lo hi k s m = Some out →
    ∃ ss s2 m', s = concat ss ++ s2 ∧ (lo ≤ List.length ss ≤ hi)%nat
                ∧ Forall L ss ∧ k s2 m' = Some out.
Proof.
  intros Hstep. induction hi as [|hi IH]; intros lo k s m out; simpl.
  - destruct lo; [|done]. intros H. exists [], s, m.
    split; [done|]. split; [simpl; lia|]. split; [constructor|done].
  - destruct (step (match_rep step (pred lo) hi k) s m) as [out'|] eqn:E.
    + intros [= <-]. apply Hstep in E as (s1 & s' & m1 & -> & H1 & E).
      apply IH in E as (ss & s2 & m' & -> & Hlen & Hss & Hk).
      exists (s1 :: ss), s2, m'. simpl. rewrite <- app_assoc.
      split; [done|]. split; [lia|]. split; [by constructor|done].
    + destruct lo; [|done]. intros H. exists [], s, m.
      split; [done|]. split; [simpl; lia|]. split; [constructor|done].
Qed.

(** What the matcher accepts is in the pattern's language. *)
Lemma rmatch_sound {A} r :
  ∀ (k : pystr → captures → option A) s m out,
    rmatch r k s m = Some out →
    ∃ s1 s2 m', s = s1 ++ s2 ∧ lang r s1 ∧ k s2 m' = Some out.
Proof.
  induction r as [cs|p|r1 IH1 r2 IH2|r1 IH1 r2 IH2|lo hi r IH|cs|i r IH];
    intros k s m out; simpl.
  - destruct s as [|c s]; [done|]. destruct (in_cset cs c) eqn:E; [|done].
    intros H. exists [c], s, m. split; [done|]. split; [by exists c|done].
  - destruct (strip_prefix p s) as [s'|] eqn:E; [|done].
    intros H. exists p, s', m. split; [by apply strip_prefix_spec|done].
  - intros (s1 & s' & m1 & -> & H1 & H)%IH1.
    apply IH2 in H as (s2 & s3 & m2 & -> & H2 & H).
    exists (s1 ++ s2), s3, m2. rewrite <- app_assoc. split; [done|].
    split; [by exists s1, s2|done].
  - destruct (rmatch r1 k s m) as [out'|] eqn:E.
    + intros [= <-]. apply IH1 in E as (s1 & s2 & m' & -> & H1 & H).
      exists s1, s2, m'. split; [done|]. split; [by left|done].
    + intros (s1 & s2 & m' & -> & H1 & H)%IH2.
      exists s1, s2, m'. split; [done|]. split; [by right|done].
  - intros H.
    apply (match_rep_sound (rmatch r) (lang r) IH) in H
      as (ss & s2 & m' & -> & Hlen & Hss & Hk).
    exists (concat ss), s2, m'. split; [done|]. split; [by exists ss|done].
  - intros (s1 & s2 & -> & H1 & H)%match_star_sound.
    by exists s1, s2, m.
  - intros (s1 & s2 & m' & -> & H1 & H)%IH. eauto 10.
Qed.

Lemma re_search_sound r s out :
  re_search r s = Some out → ∃ pre mid post, s = pre ++ mid ++ post ∧ lang r mid.
Proof.
  induction s as [|c s IH]; simpl.
  - destruct (match_here r []) eqn:E; [|done]. intros _.
    apply rmatch_sound in E as (s1 & s2 & _ & Hs & H1 & _).
    by exists [], s1, s2.
  - destruct (match_here r (c :: s)) eqn:E.
    + intros _. apply rmatch_sound in E as (s1 & s2 & _ & Hs & H1 & _).
      by exists [], s1, s2.
    + intros (pre & mid & post & -> & H)%IH. by exists (c :: pre), mid, post.
Qed.

Lemma no_time_range_search s :
  no_time_range s → re_search time_pattern s = None.
Proof.
  intros H. destruct (re_search time_pattern s) eqn:E; [|done].
  apply re_search_sound in E as (pre & mid & post & Hs & Hm).
  by destruct (H pre mid post Hs).
Qed.

Lemma no_time_range_part s a t b :
  no_time_range s → s = a ++ t ++ b → no_time_range t.
Proof.
  intros H -> pre mid post ->. apply (H (a ++ pre) mid (post ++ b)).
  by rewrite <- !app_assoc.
Qed.

End Matcher.

Section LowercaseSuffix.
Context {U : Unicode} {UL : UnicodeLaws U}.

Lemma lang_time_token t :
  lang time_token t →
  ∃ d x y w o,
    t = d ++ COLON :: x :: y :: w ++ o ∧ all_space w ∧
    (o = [] ∨ o = py "AM" ∨ o = py "PM").
Proof.
  unfold time_token, digits_2. simpl.
  intros (d & ? & -> & _ & ? & ? & -> & -> & ? & ? & -> & Hmm
          & w & o & -> & Hw & ss & -> & Hlen & Hss).
  destruct Hmm as (mm & -> & Hl & Hmm).
  destruct mm as [|? [|? [|? ?]]]; simpl in Hl; try lia.
  apply Forall_cons in Hmm as [(x & -> & _) Hmm].
  apply Forall_cons in Hmm as [(y & -> & _) _].
  exists d, x, y, w, (concat ss). split; [done|]. split; [done|].
  destruct ss as [|o [|? ?]]; simpl in Hlen; try lia.
  - by left.
  - apply Forall_cons in Hss as [Ho _]. simpl. rewrite app_nil_r.
    right. exact Ho.
Qed.

(** In a time range the minutes of the first time are followed, after
    white space, by [A], [P] or a dash. *)
Lemma lang_time_pattern mid :
  lang time_pattern mid →
  ∃ d x y w c tail,
    mid = d ++ COLON :: x :: y :: w ++ c :: tail ∧ all_space w ∧
    c ∈ [65; 80; EN_DASH; HYPHEN].
Proof.
  unfold time_pattern. simpl lang.
  intros (t1 & ? & -> & Ht1 & w1 & ? & -> & Hw1 & ? & ? & ->
          & (dash & -> & Hdash) & _).
  apply lang_time_token in Ht1 as (d & x & y & w & o & -> & Hw & Ho).
  assert (dash ∈ [EN_DASH; HYPHEN]) as Hd.
  { simpl in Hdash. apply orb_true_iff in Hdash as [->%N.eqb_eq|Hdash];
      [left|].
    rewrite orb_false_r in Hdash. apply N.eqb_eq in Hdash as ->.
    right. left. }
  destruct Ho as [->|[->| ->]].
  - exists d, x, y, (w ++ w1), dash. eexists.
    split; [|split; [by apply Forall_app|by right; right]].
    rewrite app_nil_r. rewrite <- ?app_assoc. simpl.
    rewrite <- ?app_assoc. reflexivity.
  - exists d, x, y, w, 65. eexists.
    split; [|split; [done|left]].
    change (py "AM") with [65; 77].
    rewrite <- ?app_assoc. simpl. rewrite <- ?app_assoc. reflexivity.
  - exists d, x, y, w, 80. eexists.
    split; [|split; [done|right; left]].
    change (py "PM") with [80; 77].
    rewrite <- ?app_assoc. simpl. rewrite <- ?app_assoc. reflexivity.
Qed.

(** Moreover a dash follows. *)
Lemma lang_time_pattern_dash mid :
  lang time_pattern mid →
  ∃ d x y w c tail dash,
    mid = d ++ COLON :: x :: y :: w ++ c :: tail ∧ all_space w ∧
    c ∈ [65; 80; EN_DASH; HYPHEN] ∧
    dash ∈ [EN_DASH; HYPHEN] ∧ dash ∈ c :: tail.
Proof.
  unfold time_pattern. simpl lang.
  intros (t1 & ? & -> & Ht1 & w1 & ? & -> & Hw1 & ? & rest & ->
          & (dash & -> & Hdash) & _).
  apply lang_time_token in Ht1 as (d & x & y & w & o & -> & Hw & Ho).
  assert (dash ∈ [EN_DASH; HYPHEN]) as Hd.
  { simpl in Hdash. apply orb_true_iff in Hdash as [->%N.eqb_eq|Hdash];
      [left|].
    rewrite orb_false_r in Hdash. apply N.eqb_eq in Hdash as ->.
    right. left. }
  destruct Ho as [->|[->| ->]].
  - exists d, x, y, (w ++ w1), dash, rest, dash.
    split.
    { rewrite app_nil_r. rewrite <- ?app_assoc. simpl.
      rewrite <- ?app_assoc. reflexivity. }
    split; [by apply Forall_app|]. split; [by right; right|].
    split; [done|left].
  - exists d, x, y, w, 65, (77 :: w1 ++ dash :: rest), dash.
    split.
    { change (py "AM") with [65; 77].
      rewrite <- ?app_assoc. simpl. rewrite <- ?app_assoc. reflexivity. }
    split; [done|]. split; [left|]. split; [done|].
    right. right. apply elem_of_app. right. left.
  - exists d, x, y, w, 80, (77 :: w1 ++ dash :: rest), dash.
    split.
    { change (py "PM") with [80; 77].
      rewrite <- ?app_assoc. simpl. rewrite <- ?app_assoc. reflexivity. }
    split; [done|]. split; [right; left|]. split; [done|].
    right. right. apply elem_of_app. right. left.
Qed.

(** A dash is neither white space nor a letter of a suffix. *)
Lemma dash_not_in_reading dash g sfx :
  dash ∈ [EN_DASH; HYPHEN] → all_space g →
  sfx ∈ [] :: suffixes AM ++ suffixes PM → dash ∉ g ++ sfx.
Proof.
  intros Hdash Hg Hs [Hin|Hin]%elem_of_app.
  - revert Hin. apply all_space_not_elem; [|done].
    repeat (apply elem_of_cons in Hdash as [->|Hdash]);
      try (by apply elem_of_nil in Hdash); reflexivity.
  - simpl in Hs.
    repeat (apply elem_of_cons in Hdash as [->|Hdash]);
      try (by apply elem_of_nil in Hdash);
      repeat (apply elem_of_cons in Hs as [->|Hs]);
      try (by apply elem_of_nil in Hs);
      vm_compute in Hin;
      repeat (apply elem_of_cons in Hin as [?|Hin]); try done;
      by apply elem_of_nil in Hin.
Qed.

Lemma first_nonspace w c x g s0 y :
  all_space w → all_space g → isspace c = false → isspace s0 = false →
  w ++ c :: x = g ++ s0 :: y → c = s0.
Proof.
  intros Hw. revert g. induction Hw as [|a w Ha _ IH]; intros g Hg Hc Hs E.
  - destruct Hg as [|b g Hb _]; simpl in E.
    + by injection E.
    + injection E as -> _. congruence.
  - destruct Hg as [|b g Hb Hg]; simpl in E.
    + injection E as -> _. congruence.
    + injection E as _ E. by apply (IH g).
Qed.

Lemma split_at c (l1 r1 l2 r2 : pystr) :
  c ∉ l1 → l1 ++ c :: r1 = l2 ++ c :: r2 →
  (l1 = l2 ∧ r1 = r2) ∨ ∃ m, l2 = l1 ++ c :: m ∧ r1 = m ++ c :: r2.
Proof.
  revert l2. induction l1 as [|a l1 IH]; intros l2 Hc E.
  - destruct l2 as [|b l2]; simpl in E.
    + left. by injection E.
    + injection E as <- E. right. by exists l2.
  - apply not_elem_of_cons in Hc as [Hac Hc].
    destruct l2 as [|b l2]; simpl in E.
    + injection E as -> _. done.
    + injection E as <- E. destruct (IH l2 Hc E) as [[-> ->]|(m & -> & ->)].
      * by left.
      * right. by exists m.
Qed.

Lemma colon_not_decimal d : Forall (λ c, isdecimal c = true) d → COLON ∉ d.
Proof.
  intros H Hin. rewrite Forall_forall in H. by specialize (H _ Hin).
Qed.

Lemma colon_not_space w : all_space w → COLON ∉ w.
Proof. by apply all_space_not_elem. Qed.

(** What follows the minutes of a clock reading with a small-letter suffix
    cannot continue a time range. *)
Lemma lowercase_blocks g sfx w c rest1 rest2 :
  all_space g → sfx ∈ [ py "am"; py "pm" ] →
  all_space w → c ∈ [65; 80; EN_DASH; HYPHEN] →
  g ++ sfx ++ rest1 = w ++ c :: rest2 → False.
Proof.
  intros Hg Hs Hw Hc E.
  assert (∃ s0 s', sfx = s0 :: s' ∧ isspace s0 = false ∧ (s0 = 97 ∨ s0 = 112))
    as (s0 & s' & -> & Hs0 & Hs0').
  { repeat (apply elem_of_cons in Hs as [->|Hs]);
      [| |by apply elem_of_nil in Hs]; eexists _, _; by auto. }
  assert (isspace c = false) as Hc'.
  { repeat (apply elem_of_cons in Hc as [->|Hc]);
      try (by apply elem_of_nil in Hc); reflexivity. }
  symmetry in E. apply first_nonspace in E; try done. subst s0.
  repeat (apply elem_of_cons in Hc as [->|Hc]);
    try (by apply elem_of_nil in Hc);
    destruct Hs0' as [?|?]; done.
Qed.

Lemma range_str_no_time_range t1 g1 dash g2 t2 :
  lowercase_clock t1 → clock_reading t2 →
  all_space g1 → all_space g2 → dash ∈ [EN_DASH; HYPHEN] →
  no_time_range (range_str t1 g1 dash g2 t2).
Proof.
  intros (Hh1 & Hl1 & Hm1 & Hg1 & Hs1) (Hh2 & Hl2 & Hm2 & Hg2 & Hs2)
    Hsp1 Hsp2 Hdash pre mid post E Hmid.
  apply lang_time_pattern_dash in Hmid
    as (d & x & y & w & c & tail & dash' & -> & Hw & Hc & Hdash' & Hafter).
  destruct t1 as [h1 m1 gap1 sfx1], t2 as [h2 m2 gap2 sfx2]. simpl in *.
  unfold range_str, clock_str in E. simpl in E.
  destruct m1 as [|a1 [|b1 [|? ?]]]; try done.
  destruct m2 as [|a2 [|b2 [|? ?]]]; try done.
  repeat progress (rewrite <- ?app_assoc in E; simpl in E).
  rewrite (app_assoc pre d) in E.
  apply split_at in E as [[_ E]|(m & _ & E)]; [| |by apply colon_not_decimal].
  - injection E as _ _ E.
    by eapply (lowercase_blocks gap1 sfx1 w c).
  - change (a1 :: b1 :: gap1 ++ sfx1 ++ g1 ++ dash :: g2 ++ h2
              ++ COLON :: a2 :: b2 :: gap2 ++ sfx2)
      with ([a1; b1] ++ gap1 ++ sfx1 ++ g1 ++ [dash] ++ g2 ++ h2
              ++ COLON :: a2 :: b2 :: gap2 ++ sfx2) in E.
    rewrite !app_assoc in E.
    apply split_at in E as [[_ E]|(m' & _ & E)].
    + injection E as _ _ E.
      apply (dash_not_in_reading dash' gap2 sfx2); [done..|].
      rewrite E. apply elem_of_app. right.
      change (dash' ∈ (c :: tail) ++ post). apply elem_of_app. by left.
    + assert (COLON ∈ a2 :: b2 :: gap2 ++ sfx2) as Hin
        by (rewrite E; apply elem_of_app; right; left).
      apply elem_of_cons in Hin as [<-|Hin];
        [by apply Forall_cons in Hm2 as [? _]|].
      apply elem_of_cons in Hin as [<-|Hin];
        [by apply Forall_cons in Hm2 as [_ [? _]%Forall_cons]|].
      apply elem_of_app in Hin as [Hin|Hin];
        [by apply colon_not_space in Hin|].
      simpl in Hs2.
      repeat (apply elem_of_cons in Hs2 as [->|Hs2]);
        try (by apply elem_of_nil in Hs2);
        vm_compute in Hin;
        repeat (apply elem_of_cons in Hin as [?|Hin]); try done;
        by apply elem_of_nil in Hin.
    + rewrite !elem_of_app.
      intros [[[[[[Hin|Hin]|Hin]|Hin]|Hin]|Hin]|Hin].
      * repeat (apply elem_of_cons in Hin as [<-|Hin]);
          [by apply Forall_cons in Hm1 as [? _]
          |by apply Forall_cons in Hm1 as [_ [? _]%Forall_cons]
          |by apply elem_of_nil in Hin].
      * by apply colon_not_space in Hin.
      * repeat (apply elem_of_cons in Hs1 as [->|Hs1]);
          try (by apply elem_of_nil in Hs1);
          vm_compute in Hin;
          repeat (apply elem_of_cons in Hin as [?|Hin]); try done;
          by apply elem_of_nil in Hin.
      * by apply colon_not_space in Hin.
      * apply list_elem_of_singleton in Hin. subst dash.
        repeat (apply elem_of_cons in Hdash as [?|Hdash]); try done.
        by apply elem_of_nil in Hdash.
      * by apply colon_not_space in Hin.
      * by apply colon_not_decimal in Hin.
Qed.

Lemma split_parts sep s :
  ∃ seg segs, split sep s = seg :: segs ∧ (∃ b, s = seg ++ b) ∧
              ∀ r, r ∈ segs → ∃ a b, s = a ++ r ++ b.
Proof.
  induction s as [|c s (seg & segs & E & [b Hb] & Hsegs)]; simpl.
  - exists [], []. split; [done|]. split; [by exists []|].
    by intros r ?%elem_of_nil.
  - destruct (c =? sep).
    + exists [], (split sep s). split; [done|]. split; [by eexists|].
      rewrite E. intros r [->|Hr]%elem_of_cons.
      * exists [c], b. by rewrite Hb at 1.
      * destruct (Hsegs r Hr) as (a' & b' & ->). by exists (c :: a'), b'.
    + rewrite E. exists (c :: seg), segs. split; [done|].
      split; [exists b; by rewrite Hb at 1|].
      intros r Hr. destruct (Hsegs r Hr) as (a' & b' & ->).
      by exists (c :: a'), b'.
Qed.

Lemma split_part sep s r : r ∈ split sep s → ∃ a b, s = a ++ r ++ b.
Proof.
  destruct (split_parts sep s) as (seg & segs & -> & [b Hb] & Hsegs).
  intros [->|Hr]%elem_of_cons; [by exists [], b|by apply Hsegs].
Qed.

Lemma foldl_add_range_none ranges :
  Forall (λ r, re_search time_pattern r = None) ranges →
  foldl add_range [] ranges = [].
Proof.
  induction 1 as [|r ranges Hr _ IH]; [done|].
  simpl. unfold add_range at 2. by rewrite Hr.
Qed.

Lemma contains_elem n s x : contains n s = true → x ∈ n → x ∈ s.
Proof.
  intros (l & r & ->)%contains_spec Hx.
  apply elem_of_app. right. apply elem_of_app. by left.
Qed.

(** A text without the letter [h] in which no part is a time range parses
    to no interval. *)
Lemma parse_no_time_range s :
  104 ∉ ascii_fold s → no_time_range s → parse_hours_string s = [].
Proof.
  intros Hh Hno. unfold parse_hours_string.
  rewrite closed_test, all_day_test, open_all_day_test.
  destruct (icontains (py "closed") s); [done|].
  assert (icontains (py "24 hours") s = false) as ->.
  { apply not_true_is_false. intros H. apply Hh.
    apply (contains_elem _ _ 104 H). by_computation. }
  assert (icontains (py "open 24 hours") s = false) as ->.
  { apply not_true_is_false. intros H. apply Hh.
    apply (contains_elem _ _ 104 H). by_computation. }
  simpl. apply foldl_add_range_none. apply Forall_fmap, Forall_forall.
  intros r (a & b & Hr)%split_part. simpl.
  apply no_time_range_search.
  destruct (strip_decompose s) as (w1 & w2 & Hs & _).
  destruct (strip_decompose r) as (w1' & w2' & Hr' & _).
  apply (no_time_range_part s (w1 ++ a ++ w1') _ (w2' ++ b ++ w2) Hno).
  rewrite Hs at 1. rewrite Hr. rewrite Hr' at 1.
  by rewrite <- !app_assoc.
Qed.

Lemma tolower_eq c x : Ascii7.tolower c = x → c = x ∨ c + 32 = x.
Proof. unfold Ascii7.tolower. destruct (Ascii7.isupper c); auto. Qed.

Lemma range_str_elem t1 g1 dash g2 t2 c :
  lowercase_clock t1 → clock_reading t2 →
  all_space g1 → all_space g2 → dash ∈ [EN_DASH; HYPHEN] →
  c ∈ range_str t1 g1 dash g2 t2 →
  isdecimal c = true ∨ isspace c = true
  ∨ c ∈ [COLON; 97; 109; 112; 65; 77; 80; EN_DASH; HYPHEN].
Proof.
  intros (Hh1 & _ & Hm1 & Hg1 & Hs1) (Hh2 & _ & Hm2 & Hg2 & Hs2)
    Hsp1 Hsp2 Hdash.
  unfold all_space in *. rewrite Forall_forall in *.
  assert (∀ sfx, sfx ∈ [] :: suffixes AM ++ suffixes PM → c ∈ sfx →
                 c ∈ [COLON; 97; 109; 112; 65; 77; 80; EN_DASH; HYPHEN])
    as Hsfx.
  { intros sfx Hs Hc. simpl in Hs.
    repeat (apply elem_of_cons in Hs as [->|Hs]);
      try (by apply elem_of_nil in Hs); vm_compute in Hc;
      repeat (apply elem_of_cons in Hc as [->|Hc]);
      try (by apply elem_of_nil in Hc); by_computation. }
  assert (suffix t1 ∈ [] :: suffixes AM ++ suffixes PM) as Hs1'.
  { simpl.
    repeat (apply elem_of_cons in Hs1 as [->|Hs1]);
      try (by apply elem_of_nil in Hs1); by_computation. }
  assert (dash ∈ [COLON; 97; 109; 112; 65; 77; 80; EN_DASH; HYPHEN])
    as Hdash'.
  { repeat (apply elem_of_cons in Hdash as [->|Hdash]);
      try (by apply elem_of_nil in Hdash); by_computation. }
  unfold range_str, clock_str. intros H.
  repeat match type of H with
         | _ ∈ _ ++ _ => apply elem_of_app in H as [H|H]
         | _ ∈ _ :: _ => apply elem_of_cons in H as [H|H]
         end;
    try (subst c; right; right; first [exact Hdash' | by_computation]);
    eauto.
Qed.

Lemma day_entry_singleton day text :
  day_entry day [day ++ py ": " ++ text] = Some (day ++ py ": " ++ text).
Proof.
  unfold day_entry. cbn [List.find].
  change (py ": " ++ text) with (py ":" ++ [32] ++ text).
  by rewrite app_assoc, startswith_app.
Qed.

(** C10: the time-range pattern knows the suffixes in capitals only.  A
    range whose first clock reading carries its suffix in small letters, as
    in "9:00 am – 5:00 pm" or "9:00 am – 5:00", holds no match of the
    pattern and parses to no interval, whatever suffix the second reading
    has, and a place whose entry for the day is such a range is closed at
    every query time; [parse_time] itself does accept the small-letter
    suffixes.  A small-letter suffix on the second reading alone does not
    hide the range: in "5:00 – 9:00 pm" the pattern matches "5:00 – 9:00 ",
    the suffix is left out, and the interval is 05:00 to 09:00. *)
Theorem lowercase_suffix_not_recognised (t1 : clock_text) (g1 : pystr)
    (dash : N) (g2 : pystr) (t2 : clock_text) :
  lowercase_clock t1 → clock_reading t2 →
  all_space g1 → all_space g2 → dash ∈ [EN_DASH; HYPHEN] →
  re_search time_pattern (range_str t1 g1 dash g2 t2) = None ∧
  parse_hours_string (range_str t1 g1 dash g2 t2) = [] ∧
  (∀ day query_time,
     day ∈ day_names →
     is_place_open
       (place_with_hours [day ++ py ": " ++ range_str t1 g1 dash g2 t2])
       query_time day = Ok false) ∧
  range_str (ClockText (py "9") (py "00") (py " ") (py "am")) (py " ")
    EN_DASH (py " ") (ClockText (py "5") (py "00") (py " ") (py "pm"))
  = py "9:00 am – 5:00 pm" ∧
  parse_time (py "9:00 am") = Ok (Time 9 0) ∧
  parse_time (py "5:00 pm") = Ok (Time 17 0) ∧
  ((λ m, (group m 1, group m 2))
     <$> re_search time_pattern (py "5:00 – 9:00 pm"))
  = Some (py "5:00 ", py "9:00 ") ∧
  parse_hours_string (py "5:00 – 9:00 pm") = [(Time 5 0, Time 9 0)] ∧
  is_place_open (place_with_hours [py "Monday: 5:00 – 9:00 pm"])
    (Time 6 0) (py "Monday") = Ok true ∧
  is_place_open (place_with_hours [py "Monday: 5:00 – 9:00 pm"])
    (Time 18 0) (py "Monday") = Ok false.
Proof.
  intros H1 H2 Hg1 Hg2 Hdash.
  pose proof (range_str_no_time_range t1 g1 dash g2 t2 H1 H2 Hg1 Hg2 Hdash)
    as Hno.
  assert (parse_hours_string (range_str t1 g1 dash g2 t2) = []) as Hparse.
  { apply parse_no_time_range; [|done].
    unfold ascii_fold. intros (c & Hc & Hin)%list_elem_of_fmap.
    apply (range_str_elem t1 g1 dash g2 t2 c H1 H2 Hg1 Hg2 Hdash) in Hin.
    symmetry in Hc.
    apply tolower_eq in Hc as [->|Hc];
      [|assert (c = 72) as -> by lia];
      (destruct Hin as [Hin|[Hin|Hin]]; [done|done|];
       repeat (apply elem_of_cons in Hin as [?|Hin]); try done;
       by apply elem_of_nil in Hin). }
  split; [by apply no_time_range_search|]. split; [done|]. split.
  - intros day query_time Hday.
    rewrite (is_place_open_entries _
               [day ++ py ": " ++ range_str t1 g1 dash g2 t2])
      by apply lookup_singleton_eq.
    rewrite day_entry_singleton.
    by rewrite (proj1 (day_prefix_is_ignored_aux day Hday)), Hparse.
  - repeat split; vm_compute; reflexivity.
Qed.

End LowercaseSuffix.

Lemma lowercase_suffix_not_recognised_witness :
  @parse_hours_string ucd_excerpt (py "9:00 am – 5:00 pm") = [].
Proof.
  apply (lowercase_suffix_not_recognised (U := ucd_excerpt)
           (ClockText (py "9") (py "00") (py " ") (py "am")) (py " ")
           EN_DASH (py " ")
           (ClockText (py "5") (py "00") (py " ") (py "pm"))).
  - repeat split; try (repeat constructor); by_computation.
  - repeat split; try (repeat constructor); by_computation.
  - repeat constructor.
  - repeat constructor.
  - by_computation.
Defined.

(** C10, as stated, fails: the only suffix of "5:00 – 9:00 pm" is written
    in small letters, yet the range is recognised, it gives the interval
    05:00 to 09:00, and the place is open at 6:00 that day. *)
Lemma lowercase_second_suffix_recognised :
  @parse_hours_string ucd_excerpt (py "5:00 – 9:00 pm")
  = [(Time 5 0, Time 9 0)] ∧
  @is_place_open ucd_excerpt
    (place_with_hours [py "Monday: 5:00 – 9:00 pm"]) (Time 6 0) (py "Monday")
  = Ok true.
Proof. split; vm_compute; reflexivity. Qed.

Lemma filter_open_places_spec_witness :
  ∃ open_places results h',
    @filter_open_places ucd_excerpt 2%nat (Time 12 0) (py "Monday")
      [ ODict (place_with_hours [py "Monday: 9:00 AM – 5:00 PM"]);
        ODict ∅;
        OList [0%nat; 1%nat] ]
    = Ok (open_places, h') ∧
    h' !! open_places = Some (OList results) ∧
    dict_at h' <$> results = [Some ∅].
Proof.
  destruct (filter_open_places_spec (U := ucd_excerpt)
              [ ODict (place_with_hours [py "Monday: 9:00 AM – 5:00 PM"]);
                ODict ∅;
                OList [0%nat; 1%nat] ]
              2%nat [0%nat; 1%nat] (Time 12 0) (py "Monday"))
    as (open_places & results & h' & Hrun & Hout & _ & _ & _ & Hcopies & _).
  - reflexivity.
  - constructor; [|constructor; [|constructor]].
    + eexists. split; [reflexivity|]. apply well_formed_place_with_hours.
    + eexists. split; [reflexivity|]. by apply well_formed_no_hours.
  - exists open_places, results, h'. split; [exact Hrun|].
    split; [exact Hout|]. rewrite Hcopies. vm_compute. reflexivity.
Defined.

(** * Further properties of the hours filter *)

Section ParserInvariants.
Context {U : Unicode}.

Lemma mk_time_valid h m t : mk_time h m = Ok t → valid_time t.
Proof.
  unfold mk_time, valid_time.
  destruct (N.leb_spec h 23), (N.leb_spec m 59); simpl; try done.
  by intros [= <-].
Qed.

Lemma parse_time_ok_valid (time_str : pystr) (t : time) :
  parse_time time_str = Ok t → valid_time t.
Proof.
  unfold parse_time.
  destruct (contains (py "AM") _ || contains (py "PM") _).
  - destruct (re_search time_12h_pattern _) as [m|]; [|done].
    destruct (int (group m 1)) as [h|]; [|done].
    destruct (int (group m 2)) as [mi|]; [|done].
    simpl. apply mk_time_valid.
  - destruct (re_search time_24h_pattern _) as [m|]; [|done].
    destruct (int (group m 1)) as [h|]; [|done].
    destruct (int (group m 2)) as [mi|]; [|done].
    simpl. apply mk_time_valid.
Qed.

(** X1: a time that [parse_time] returns is a time of day: its hour is at
    most 23 and its minute at most 59, whatever the text was. *)
Theorem parse_time_valid (time_str : pystr) (t : time) :
  parse_time time_str = Ok t → valid_time t.
Proof. apply parse_time_ok_valid. Qed.

Lemma add_range_valid time_ranges range_str :
  Forall (λ r, valid_time (fst r) ∧ valid_time (snd r)) time_ranges →
  Forall (λ r, valid_time (fst r) ∧ valid_time (snd r))
    (add_range time_ranges range_str).
Proof.
  intros H. unfold add_range.
  destruct (re_search time_pattern range_str) as [m|]; [|done].
  destruct (parse_time (group m 1)) as [t1|] eqn:E1; [|done].
  destruct (parse_time (group m 2)) as [t2|e] eqn:E2; [|by destruct e].
  apply Forall_app. split; [done|]. constructor; [|constructor].
  split; by eapply parse_time_ok_valid.
Qed.

Lemma foldl_add_range_valid ranges acc :
  Forall (λ r, valid_time (fst r) ∧ valid_time (snd r)) acc →
  Forall (λ r, valid_time (fst r) ∧ valid_time (snd r))
    (foldl add_range acc ranges).
Proof.
  revert acc. induction ranges as [|r ranges IH]; intros acc H; [done|].
  simpl. by apply IH, add_range_valid.
Qed.

(** X2: both ends of every interval that [parse_hours_string] returns are
    times of day (hour at most 23, minute at most 59): a range with an
    impossible time, such as "9:00 AM – 25:00", is dropped, not returned. *)
Theorem parse_hours_string_valid (hours_str : pystr) :
  (∀ range, range ∈ parse_hours_string hours_str →
            valid_time (fst range) ∧ valid_time (snd range)) ∧
  parse_hours_string (py "9:00 AM – 25:00, 1:00 PM – 2:75 PM, 3:00 PM – 4:00 PM")
  = [(Time 15 0, Time 16 0)].
Proof.
  split; [|vm_compute; reflexivity].
  apply Forall_forall. unfold parse_hours_string.
  destruct (contains (py "closed") _); [constructor|].
  destruct (_ || _).
  - constructor; [|constructor]. unfold valid_time. simpl. lia.
  - apply foldl_add_range_valid. constructor.
Qed.

Lemma add_range_length time_ranges range_str :
  (List.length (add_range time_ranges range_str)
   ≤ S (List.length time_ranges))%nat.
Proof.
  unfold add_range.
  destruct (re_search time_pattern range_str) as [m|]; [|lia].
  destruct (parse_time (group m 1)) as [t1|]; [|lia].
  destruct (parse_time (group m 2)) as [t2|e]; [|destruct e; lia].
  rewrite length_app. simpl. lia.
Qed.

Lemma foldl_add_range_length ranges acc :
  (List.length (foldl add_range acc ranges)
   ≤ List.length acc + List.length ranges)%nat.
Proof.
  revert acc. induction ranges as [|r ranges IH]; intros acc; simpl; [lia|].
  specialize (IH (add_range acc r)).
  pose proof (add_range_length acc r). lia.
Qed.

Lemma split_length sep s : List.length (split sep s)
  = S (List.length (List.filter (N.eqb sep) s)).
Proof.
  induction s as [|c s IH]; simpl; [done|].
  rewrite (N.eqb_sym sep c). destruct (c =? sep); simpl.
  - by rewrite IH.
  - destruct (split sep s) eqn:E; simpl in *; [done|]. exact IH.
Qed.

Lemma commas_app a b : commas (a ++ b) = (commas a + commas b)%nat.
Proof. unfold commas. by rewrite List.filter_app, length_app. Qed.

(** X3: a schedule text yields at most one interval per comma-separated
    range: the number of intervals is at most the number of commas plus
    one. *)
Theorem parse_hours_string_length (hours_str : pystr) :
  (List.length (parse_hours_string hours_str) ≤ S (commas hours_str))%nat.
Proof.
  unfold parse_hours_string.
  destruct (contains (py "closed") _); [simpl; lia|].
  destruct (_ || _); [simpl; lia|].
  pose proof (foldl_add_range_length (map strip (split COMMA (strip hours_str))) [])
    as H.
  rewrite length_map, split_length in H. simpl in H.
  fold (commas (strip hours_str)) in H.
  destruct (strip_decompose hours_str) as (w1 & w2 & Hs & _).
  rewrite Hs at 2. rewrite !commas_app. lia.
Qed.

End ParserInvariants.

Lemma parse_time_valid_witness :
  valid_time (Time 14 30).
Proof.
  apply (parse_time_valid (U := ucd_excerpt) (py "2:30 PM")).
  vm_compute. reflexivity.
Defined.

Section WhiteSpace.
Context {U : Unicode} {UL : UnicodeLaws U}.

Lemma strip_padding w1 s w2 :
  all_space w1 → all_space w2 → strip (w1 ++ s ++ w2) = strip s.
Proof.
  intros H1 H2. rewrite strip_app_space_l by done.
  unfold strip. by rewrite rstrip_app_space.
Qed.

(** X4: white space around the text changes nothing: the three parsers
    give the same result on a text and on the text with any white space,
    Basic Latin or not, put before and after it. *)
Theorem parsers_ignore_padding (w1 s w2 : pystr) :
  all_space w1 → all_space w2 →
  parse_time (w1 ++ s ++ w2) = parse_time s ∧
  parse_day (w1 ++ s ++ w2) = parse_day s ∧
  parse_hours_string (w1 ++ s ++ w2) = parse_hours_string s.
Proof.
  intros H1 H2.
  unfold parse_time, parse_day, parse_hours_string.
  by rewrite !strip_padding.
Qed.

Lemma tolower_is_two c : Ascii7.tolower c = 50 → c = 50.
Proof.
  unfold Ascii7.tolower, Ascii7.isupper.
  destruct ((65 <=? c) && (c <=? 90)) eqn:E; [|done].
  apply andb_true_iff in E as [?%N.leb_le _]. lia.
Qed.

Lemma re_search_no_digit s :
  Forall (λ c, isdecimal c = false) s → re_search time_pattern s = None.
Proof.
  intros H. rewrite <- (app_nil_r s). by rewrite re_search_skip.
Qed.

Lemma no_digit_check s :
  forallb (λ c, negb (isdecimal c)) s = true →
  Forall (λ c, isdecimal c = false) s.
Proof.
  rewrite forallb_forall, Forall_forall. intros H c Hc.
  by apply negb_true_iff, H, list_elem_of_In.
Qed.

(** X5: a schedule text without any decimal digit ("By appointment",
    "Open", the empty text) parses to no interval, so the day counts as
    closed. *)
Theorem parse_hours_string_no_digit (hours_str : pystr) :
  Forall (λ c, isdecimal c = false) hours_str →
  parse_hours_string hours_str = [].
Proof.
  intros Hd. unfold parse_hours_string.
  rewrite closed_test, all_day_test, open_all_day_test.
  destruct (icontains (py "closed") hours_str); [done|].
  assert (50 ∉ ascii_fold hours_str) as Hno.
  { unfold ascii_fold. intros (c & Hc & Hin)%list_elem_of_fmap.
    symmetry in Hc. apply tolower_is_two in Hc as ->.
    rewrite Forall_forall in Hd. by specialize (Hd _ Hin). }
  assert (icontains (py "24 hours") hours_str = false) as ->.
  { apply not_true_is_false. intros H. apply Hno.
    apply (contains_elem _ _ 50 H). by_computation. }
  assert (icontains (py "open 24 hours") hours_str = false) as ->.
  { apply not_true_is_false. intros H. apply Hno.
    apply (contains_elem _ _ 50 H). by_computation. }
  simpl. apply foldl_add_range_none. apply Forall_fmap, Forall_forall.
  intros r (a & b & Hr)%split_part. simpl.
  apply re_search_no_digit.
  destruct (strip_decompose hours_str) as (w1 & w2 & Hs & _).
  destruct (strip_decompose r) as (w1' & w2' & Hr' & _).
  rewrite Hs, Hr, Hr' in Hd.
  rewrite !Forall_app in Hd. tauto.
Qed.

End WhiteSpace.

Lemma parsers_ignore_padding_witness :
  @parse_time ucd_excerpt ([0xA0; 9] ++ py "2:30 PM" ++ [0x3000])
  = @parse_time ucd_excerpt (py "2:30 PM").
Proof.
  apply (parsers_ignore_padding (U := ucd_excerpt) [0xA0; 9] (py "2:30 PM")
           [0x3000]); repeat constructor.
Defined.

Lemma parse_hours_string_no_digit_witness :
  @parse_hours_string ucd_excerpt (py "By appointment only") = [].
Proof.
  apply (parse_hours_string_no_digit (U := ucd_excerpt)).
  apply no_digit_check. vm_compute. reflexivity.
Defined.

Section EvaluatorEdges.
Context {U : Unicode} {UL : UnicodeLaws U}.

Lemma find_day_hours_first prefix before entry rest :
  Forall (λ e, startswith prefix e = false) before →
  startswith prefix entry = true →
  find_day_hours prefix ((VStr <$> before) ++ VStr entry :: rest)
  = Ok (Some entry).
Proof.
  intros Hb He. induction Hb as [|e before Hne _ IH]; simpl.
  - by rewrite He.
  - by rewrite Hne.
Qed.

(** X6: the first entry that begins with ["<query_day>:"] decides alone.
    Whatever follows it in the [hours] list (a second entry for the same
    day, or values that are not strings at all) is never looked at. *)
Theorem is_place_open_first_entry (place : gmap pystr value)
    (before : list pystr) (entry : pystr) (rest : list value)
    (query_time : time) (query_day : pystr) :
  place !! HOURS = Some (VList ((VStr <$> before) ++ VStr entry :: rest)) →
  Forall (λ e, startswith (query_day ++ py ":") e = false) before →
  startswith (query_day ++ py ":") entry = true →
  is_place_open place query_time query_day
  = Ok (any_range query_time (parse_hours_string entry)).
Proof.
  intros Hh Hb He. unfold is_place_open. rewrite Hh.
  assert (truthy (VList ((VStr <$> before) ++ VStr entry :: rest)) = true)
    as -> by by destruct before.
  cbn [negb iterate]. unfold mbind, result_bind.
  rewrite find_day_hours_first by done.
  destruct entry as [|c entry]; [|done].
  rewrite py_colon in He. by destruct query_day.
Qed.

Lemma find_day_hours_chars prefix s :
  find_day_hours prefix (map (λ c, VStr [c]) s) = Ok None ∨
  ∃ c, find_day_hours prefix (map (λ c, VStr [c]) s) = Ok (Some [c]).
Proof.
  induction s as [|c s IH]; simpl; [by left|].
  destruct (startswith prefix [c]); [right; by exists c|exact IH].
Qed.

Lemma lang_time_pattern_length mid :
  lang time_pattern mid → (3 ≤ List.length mid)%nat.
Proof.
  intros (d & x & y & w & c & tail & -> & _)%lang_time_pattern.
  rewrite length_app. simpl. lia.
Qed.

Lemma re_search_short s :
  (List.length s < 3)%nat → re_search time_pattern s = None.
Proof.
  intros Hlen. destruct (re_search time_pattern s) eqn:E; [|done].
  apply re_search_sound in E as (pre & mid & post & -> & Hm).
  apply lang_time_pattern_length in Hm.
  rewrite !length_app in Hlen. lia.
Qed.

Lemma strip_length s : (List.length (strip s) ≤ List.length s)%nat.
Proof.
  destruct (strip_decompose s) as (w1 & w2 & Hs & _).
  rewrite Hs at 2. rewrite !length_app. lia.
Qed.

Lemma contains_length n s :
  contains n s = true → (List.length n ≤ List.length s)%nat.
Proof.
  intros (l & r & ->)%contains_spec. rewrite !length_app. lia.
Qed.

Lemma split_short sep s r :
  r ∈ split sep s → (List.length r ≤ List.length s)%nat.
Proof.
  intros (a & b & ->)%split_part. rewrite !length_app. lia.
Qed.

(** A text of fewer than three characters parses to no interval. *)
Lemma parse_hours_string_short s :
  (List.length s < 3)%nat → parse_hours_string s = [].
Proof.
  intros Hlen. unfold parse_hours_string.
  rewrite closed_test, all_day_test, open_all_day_test.
  destruct (icontains (py "closed") s); [done|].
  assert (∀ n, (3 ≤ List.length n)%nat → icontains n s = false) as Hn.
  { intros n Hlen'. apply not_true_is_false. intros H%contains_length.
    unfold ascii_fold in H. rewrite length_map in H. lia. }
  rewrite !Hn by (vm_compute; lia).
  simpl. apply foldl_add_range_none. apply Forall_fmap, Forall_forall.
  intros r Hr%split_short. simpl. apply re_search_short.
  pose proof (strip_length s). pose proof (strip_length r). lia.
Qed.

(** X7: a place whose [hours] is a single string, not a list of strings,
    is reported closed on every day and at every time, without any error:
    the loop then runs over the characters of the string. *)
Theorem is_place_open_hours_string (place : gmap pystr value)
    (hours : pystr) (query_time : time) (query_day : pystr) :
  place !! HOURS = Some (VStr hours) →
  is_place_open place query_time query_day = Ok false.
Proof.
  intros Hh. unfold is_place_open. rewrite Hh.
  destruct hours as [|c0 hours]; [done|].
  change (truthy _) with true. cbn [negb iterate].
  unfold mbind, result_bind.
  destruct (find_day_hours_chars (query_day ++ py ":") (c0 :: hours))
    as [->|[c ->]]; [done|].
  by rewrite parse_hours_string_short by (simpl; lia).
Qed.

End EvaluatorEdges.

Lemma is_place_open_first_entry_witness :
  @is_place_open ucd_excerpt
    {[ HOURS := VList [ VStr (py "Sunday: Closed");
                        VStr (py "Monday: 9:00 AM – 5:00 PM");
                        VStr (py "Monday: Closed");
                        VInt 7 ] ]}
    (Time 12 0) (py "Monday") = Ok true.
Proof.
  apply (is_place_open_first_entry (U := ucd_excerpt) _
           [py "Sunday: Closed"] (py "Monday: 9:00 AM – 5:00 PM")
           [VStr (py "Monday: Closed"); VInt 7]).
  - apply lookup_singleton_eq.
  - repeat constructor.
  - reflexivity.
Defined.

Lemma is_place_open_hours_string_witness :
  @is_place_open ucd_excerpt {[ HOURS := VStr (py "Monday: 9:00 AM – 5:00 PM") ]}
    (Time 12 0) (py "Monday") = Ok false.
Proof.
  apply (is_place_open_hours_string (U := ucd_excerpt) _
           (py "Monday: 9:00 AM – 5:00 PM")).
  apply lookup_singleton_eq.
Defined.

Section BatchFilterRuns.
Context {U : Unicode}.

(** The store after a run of the batch filter: the old objects, the result
    list, the copies. *)
Lemma filter_open_places_run (h : store) (places : loc) (items : list loc)
    (query_time : time) (query_day : pystr) :
  h !! places = Some (OList items) →
  places_ok h items →
  filter_open_places places query_time query_day h
  = Ok (List.length h,
        h ++ OList (seq (S (List.length h))
                      (List.length (open_dicts h query_time query_day items)))
          :: ((λ d, ODict (delete HOURS d))
                <$> open_dicts h query_time query_day items)).
Proof.
  intros Hplaces Hok.
  unfold filter_open_places, mbind, heapM_bind, alloc, load_list.
  rewrite lookup_app_l_Some with (x := OList items) by done.
  pose proof (for_each_filter_step h items query_time query_day Hok [] [])
    as Hloop.
  simpl in Hloop. rewrite Nat.add_0_r in Hloop. by rewrite Hloop.
Qed.

Lemma copy_lookup (h : store) (acc : list loc)
    (ds : list (gmap pystr value)) (i : nat) d :
  ds !! i = Some d →
  (h ++ OList acc :: ((λ d, ODict (delete HOURS d)) <$> ds))
    !! (S (List.length h) + i)%nat
  = Some (ODict (delete HOURS d)).
Proof.
  intros Hi. rewrite lookup_app_r by lia.
  replace (S (List.length h) + i - List.length h)%nat with (S i) by lia.
  simpl. by rewrite list_lookup_fmap, Hi.
Qed.

Lemma open_dicts_none h query_time query_day items :
  Forall (λ p, place_is_open h query_time query_day p = false) items →
  open_dicts h query_time query_day items = [].
Proof.
  induction 1 as [|p items Hp _ IH]; [done|].
  unfold open_dicts. simpl. rewrite Hp. exact IH.
Qed.

(** X8: the records the batch filter returns carry no hours, so a second
    run of the filter over its own result list, for any day and time,
    succeeds and returns an empty list. *)
Theorem filter_open_places_twice (h : store) (places : loc)
    (items : list loc) (query_time : time) (query_day : pystr) :
  h !! places = Some (OList items) →
  places_ok h items →
  ∃ open_places h',
    filter_open_places places query_time query_day h = Ok (open_places, h') ∧
    ∀ query_time' query_day', ∃ again h'',
      filter_open_places open_places query_time' query_day' h'
      = Ok (again, h'') ∧
      h'' !! again = Some (OList []).
Proof.
  intros Hplaces Hok.
  rewrite (filter_open_places_run h places items) by done.
  set (ds := open_dicts h query_time query_day items).
  set (results := seq (S (List.length h)) (List.length ds)).
  set (h' := h ++ OList results :: ((λ d, ODict (delete HOURS d)) <$> ds)).
  exists (List.length h), h'. split; [done|].
  intros query_time' query_day'.
  assert (h' !! List.length h = Some (OList results)) as Hres
    by by apply list_lookup_middle.
  assert (∀ r, r ∈ results →
            ∃ d, h' !! r = Some (ODict (delete HOURS d))) as Hcopies.
  { intros r [i Hi]%list_elem_of_lookup.
    apply lookup_seq in Hi as [-> Hi].
    destruct (lookup_lt_is_Some_2 ds i Hi) as [d Hd].
    exists d. by apply copy_lookup. }
  assert (places_ok h' results) as Hok'.
  { apply Forall_forall. intros r [d Hr]%Hcopies.
    exists (delete HOURS d). split; [done|].
    apply well_formed_no_hours, lookup_delete_eq. }
  assert (open_dicts h' query_time' query_day' results = []) as Hnone.
  { apply open_dicts_none, Forall_forall. intros r [d Hr]%Hcopies.
    unfold place_is_open, dict_at. rewrite Hr.
    by rewrite is_place_open_no_hours by apply lookup_delete_eq. }
  rewrite (filter_open_places_run h' (List.length h) results) by done.
  rewrite Hnone. simpl.
  eexists _, _. split; [done|]. by apply list_lookup_middle.
Qed.

Lemma for_each_app {A} (body : A → heapM unit) xs ys h :
  for_each body (xs ++ ys) h
  = match for_each body xs h with
    | Ok (_, h') => for_each body ys h'
    | Raise e => Raise e
    end.
Proof.
  revert h. induction xs as [|x xs IH]; intros h; simpl; [done|].
  unfold mbind, heapM_bind. destruct (body x h) as [[[] h']|e]; [|done].
  apply IH.
Qed.

(** X9: one record on which the evaluator raises aborts the whole batch:
    when the records before it are well formed, the batch filter raises the
    same exception and returns no list, however many places were open. *)
Theorem filter_open_places_raises (h : store) (places : loc)
    (good : list loc) (bad : loc) (rest : list loc)
    (d : gmap pystr value) (e : exn)
    (query_time : time) (query_day : pystr) :
  h !! places = Some (OList (good ++ bad :: rest)) →
  places_ok h good →
  h !! bad = Some (ODict d) →
  is_place_open d query_time query_day = Raise e →
  filter_open_places places query_time query_day h = Raise e.
Proof.
  intros Hplaces Hok Hbad He.
  unfold filter_open_places, mbind, heapM_bind, alloc, load_list.
  rewrite lookup_app_l_Some with (x := OList (good ++ bad :: rest)) by done.
  rewrite for_each_app.
  rewrite (for_each_filter_step h good query_time query_day Hok [] []).
  simpl for_each. unfold mbind, heapM_bind, filter_step at 1.
  unfold mbind, heapM_bind, load.
  rewrite lookup_app_l_Some with (x := ODict d) by done.
  by rewrite He.
Qed.

End BatchFilterRuns.

Lemma filter_open_places_twice_witness :
  ∃ open_places h',
    @filter_open_places ucd_excerpt 2%nat (Time 12 0) (py "Monday")
      [ ODict (place_with_hours [py "Monday: 9:00 AM – 5:00 PM"]);
        ODict ∅;
        OList [0%nat; 1%nat] ]
    = Ok (open_places, h').
Proof.
  destruct (filter_open_places_twice (U := ucd_excerpt)
              [ ODict (place_with_hours [py "Monday: 9:00 AM – 5:00 PM"]);
                ODict ∅;
                OList [0%nat; 1%nat] ]
              2%nat [0%nat; 1%nat] (Time 12 0) (py "Monday"))
    as (open_places & h' & Hrun & _).
  - reflexivity.
  - constructor; [|constructor; [|constructor]].
    + eexists. split; [reflexivity|]. apply well_formed_place_with_hours.
    + eexists. split; [reflexivity|]. by apply well_formed_no_hours.
  - by exists open_places, h'.
Defined.

Lemma filter_open_places_raises_witness :
  @filter_open_places ucd_excerpt 2%nat (Time 12 0) (py "Monday")
    [ ODict (place_with_hours [py "Monday: 9:00 AM – 5:00 PM"]);
      ODict {[ HOURS := VList [VInt 24] ]};
      OList [0%nat; 1%nat] ]
  = Raise AttributeError.
Proof.
  apply (filter_open_places_raises (U := ucd_excerpt) _ 2%nat [0%nat] 1%nat []
           {[ HOURS := VList [VInt 24] ]}).
  - reflexivity.
  - constructor; [|constructor].
    eexists. split; [reflexivity|]. apply well_formed_place_with_hours.
  - reflexivity.
  - vm_compute. reflexivity.
Defined.

Section TimeTokens.
Context {U : Unicode}.

Lemma parses_as_spec token expected :
  parses_as token expected = true → parse_time token = expected.
Proof.
  unfold parses_as.
  destruct (parse_time token) as [[h m]|[]], expected as [[h' m']|[]];
    try done.
  simpl. by intros [->%N.eqb_eq ->%N.eqb_eq]%andb_true_iff.
Qed.

(** Every twenty-four-hour token with an hour and a minute below one
    hundred, checked one by one against the constructor's range check. *)
Lemma tokens_24h_checked :
  forallb (λ leading_zero,
    forallb (λ h,
      forallb (λ m, parses_as (token_24h leading_zero h m) (mk_time h m))
        (N.of_nat <$> seq 0 100))
      (N.of_nat <$> seq 0 100))
    [ false; true ] = true.
Proof. vm_compute. reflexivity. Qed.

(** The same for the twelve-hour tokens, in every casing of the suffix and
    with or without the space before it; a leading zero is tried on the
    hours below ten, where it makes a difference. *)
Lemma tokens_12h_checked :
  forallb (λ p,
    forallb (λ zh : bool * N,
      forallb (λ m,
        forallb (λ gap,
          forallb (λ suffix,
            parses_as (token_12h (fst zh) (snd zh) m gap suffix)
              (mk_time (hour_24 p (snd zh)) m))
            (suffixes p))
          [ []; [32] ])
        (N.of_nat <$> seq 0 100))
      ((pair false <$> (N.of_nat <$> seq 0 100))
         ++ (pair true <$> (N.of_nat <$> seq 0 10))))
    [ AM; PM ] = true.
Proof. vm_compute. reflexivity. Qed.

Lemma hour_text_two_digits leading_zero h :
  10 ≤ h → hour_text leading_zero h = hour_text false h.
Proof.
  intros H. unfold hour_text. by rewrite (proj2 (N.ltb_ge h 10) H).
Qed.

(** X10: on a twenty-four-hour token, one or two hour digits, a colon and
    two minute digits, [parse_time] returns that time when the hour is at
    most 23 and the minute at most 59, and raises [ValueError] otherwise:
    "24:00" and "7:60" are rejected. *)
Theorem parse_time_24h (leading_zero : bool) (h m : N) :
  h < 100 → m < 100 →
  parse_time (token_24h leading_zero h m) = mk_time h m ∧
  (h ≤ 23 → m ≤ 59 →
   parse_time (token_24h leading_zero h m) = Ok (Time h m)) ∧
  (24 ≤ h ∨ 60 ≤ m →
   parse_time (token_24h leading_zero h m) = Raise ValueError).
Proof.
  intros Hh Hm.
  assert (parse_time (token_24h leading_zero h m) = mk_time h m) as ->.
  { apply parses_as_spec.
    pose proof (proj1 (forallb_forall _ _) tokens_24h_checked) as H.
    assert (In leading_zero [false; true]) as Hz
      by (destruct leading_zero; simpl; auto).
    pose proof (proj1 (forallb_forall _ _) (H _ Hz)) as H2.
    pose proof (proj1 (forallb_forall _ _)
                  (H2 h (in_range 0 100 h ltac:(lia)))) as H3.
    exact (H3 m (in_range 0 100 m ltac:(lia))). }
  split; [done|]. unfold mk_time. split.
  - intros H1 H2.
    by rewrite (proj2 (N.leb_le _ _) H1), (proj2 (N.leb_le _ _) H2).
  - intros [H|H].
    + by rewrite (proj2 (N.leb_gt _ _)) by lia.
    + rewrite (proj2 (N.leb_gt m 59)) by lia. by rewrite andb_false_r.
Qed.

(** X11: the hour of a twelve-hour token is not limited to 1..12.  For any
    hour and minute below one hundred the result is that of the time
    constructor on the converted hour: an AM hour of 12 becomes 0 and any
    other AM hour is kept, so "13:00 AM" is 13:00; a PM hour other than 12
    has 12 added, so "0:30 PM" is 12:30 and "13:00 PM", hour 25, raises
    [ValueError], as does a minute above 59. *)
Theorem parse_time_12h_any_hour (p : period) (leading_zero : bool) (h m : N)
    (gap suffix : pystr) :
  h < 100 → m < 100 → gap ∈ [ []; [32] ] → suffix ∈ suffixes p →
  parse_time (token_12h leading_zero h m gap suffix)
  = mk_time (hour_24 p h) m ∧
  parse_time (py "13:00 AM") = Ok (Time 13 0) ∧
  parse_time (py "0:30 PM") = Ok (Time 12 30) ∧
  parse_time (py "13:00 PM") = Raise ValueError ∧
  parse_time (py "11:60 AM") = Raise ValueError.
Proof.
  intros Hh Hm Hgap Hsuffix. split.
  - apply parses_as_spec.
    pose proof (proj1 (forallb_forall _ _) tokens_12h_checked) as H.
    assert (In p [AM; PM]) as Hp by (destruct p; simpl; auto).
    pose proof (proj1 (forallb_forall _ _) (H _ Hp)) as H1.
    assert (∃ z, In (z, h) ((pair false <$> (N.of_nat <$> seq 0 100))
                              ++ (pair true <$> (N.of_nat <$> seq 0 10)))
                 ∧ hour_text leading_zero h = hour_text z h) as (z & Hz & Ez).
    { destruct leading_zero, (N.ltb_spec h 10) as [Hlt|Hge].
      - exists true. split; [|done]. apply in_or_app. right.
        apply in_map, (in_range 0 10). lia.
      - exists false. split; [|by apply hour_text_two_digits].
        apply in_or_app. left. apply in_map, (in_range 0 100). lia.
      - exists false. split; [|done]. apply in_or_app. left.
        apply in_map, (in_range 0 100). lia.
      - exists false. split; [|done]. apply in_or_app. left.
        apply in_map, (in_range 0 100). lia. }
    pose proof (proj1 (forallb_forall _ _) (H1 _ Hz)) as H3.
    pose proof (proj1 (forallb_forall _ _)
                  (H3 m (in_range 0 100 m ltac:(lia)))) as H4.
    pose proof (proj1 (forallb_forall _ _)
                  (H4 gap (proj1 (list_elem_of_In _ _) Hgap))) as H5.
    pose proof (H5 suffix (proj1 (list_elem_of_In _ _) Hsuffix)) as H6.
    simpl in H6. unfold token_12h in *. by rewrite Ez.
  - repeat split; vm_compute; reflexivity.
Qed.

End TimeTokens.

Lemma parse_time_24h_witness :
  @parse_time ucd_excerpt (py "24:00") = Raise ValueError.
Proof.
  apply (parse_time_24h (U := ucd_excerpt) false 24 0); lia.
Defined.

Lemma parse_time_12h_any_hour_witness :
  @parse_time ucd_excerpt (py "13:05pm") = Raise ValueError.
Proof.
  apply (parse_time_12h_any_hour (U := ucd_excerpt) PM false 13 5 []
           (py "pm")).
  - lia.
  - lia.
  - by_computation.
  - by_computation.
Defined.

Section NoColon.
Context {U : Unicode}.

Lemma upper_ascii s :
  Forall (λ c, c < 128) s → upper s = map Ascii7.toupper s.
Proof.
  induction 1 as [|c s Hc _ IH]; [done|].
  unfold upper in *. simpl. unfold toupper_full at 1.
  rewrite (proj2 (N.ltb_lt _ _) Hc). simpl. by rewrite IH.
Qed.

Lemma toupper_colon c : Ascii7.toupper c = COLON → c = COLON.
Proof.
  unfold Ascii7.toupper, Ascii7.islower, COLON.
  destruct ((97 <=? c) && (c <=? 122)) eqn:E; [|done].
  apply andb_true_iff in E as [?%N.leb_le _]. lia.
Qed.

Lemma lang_12h_colon mid : lang time_12h_pattern mid → COLON ∈ mid.
Proof.
  unfold time_12h_pattern. simpl lang.
  intros (s1 & ? & -> & _ & ? & s2 & -> & -> & _).
  apply elem_of_app. right. rewrite py_colon. left.
Qed.

Lemma lang_24h_colon mid : lang time_24h_pattern mid → COLON ∈ mid.
Proof.
  unfold time_24h_pattern. simpl lang.
  intros (s1 & ? & -> & _ & ? & s2 & -> & -> & _).
  apply elem_of_app. right. rewrite py_colon. left.
Qed.

Lemma re_search_no_colon r s :
  (∀ mid, lang r mid → COLON ∈ mid) → COLON ∉ s → re_search r s = None.
Proof.
  intros Hr Hs. destruct (re_search r s) eqn:E; [|done].
  apply re_search_sound in E as (pre & mid & post & -> & Hm).
  destruct Hs. apply elem_of_app. right. apply elem_of_app. left.
  by apply Hr.
Qed.

(** X12: a time text in Basic Latin without a colon, such as "5 PM",
    "1430" or the empty text, is rejected: [parse_time] raises
    [ValueError]. *)
Theorem parse_time_no_colon (time_str : pystr) :
  Forall (λ c, c < 128) time_str → COLON ∉ time_str →
  parse_time time_str = Raise ValueError.
Proof.
  intros Hascii Hcolon.
  destruct (strip_decompose time_str) as (w1 & w2 & Hs & _).
  assert (Forall (λ c, c < 128) (strip time_str)) as Ha.
  { rewrite Hs in Hascii. rewrite !Forall_app in Hascii. tauto. }
  assert (COLON ∉ upper (strip time_str)) as Hno.
  { rewrite upper_ascii by done.
    intros (c & Hc & Hin)%list_elem_of_fmap.
    symmetry in Hc. apply toupper_colon in Hc as ->.
    apply Hcolon. rewrite Hs. apply elem_of_app. right.
    apply elem_of_app. by left. }
  unfold parse_time.
  rewrite (re_search_no_colon time_12h_pattern) by (done || apply lang_12h_colon).
  rewrite (re_search_no_colon time_24h_pattern) by (done || apply lang_24h_colon).
  by destruct (_ || _).
Qed.

End NoColon.

Lemma parse_time_no_colon_witness :
  @parse_time ucd_excerpt (py "5 PM") = Raise ValueError.
Proof.
  apply (parse_time_no_colon (U := ucd_excerpt)).
  - apply Forall_forall. intros c Hc.
    apply N.ltb_lt.
    apply (proj1 (forallb_forall (λ c, c <? 128) (py "5 PM")) eq_refl c).
    by apply list_elem_of_In.
  - by_computation.
Defined.

(** * Properties of the response filter *)

Section ResponseFilter.

Lemma eqb_str_spec a b : eqb_str a b = true ↔ a = b.
Proof.
  revert b. induction a as [|x a IH]; intros [|y b]; simpl; try done.
  rewrite andb_true_iff, N.eqb_eq, IH. split; [by intros [-> ->]|].
  by intros [= -> ->].
Qed.

Lemma hashable_strings (tags : list pystr) :
  forallb hashable (VStr <$> tags) = true.
Proof. induction tags as [|t tags IH]; [done|]. exact IH. Qed.

Lemma py_set_strings (tags : list pystr) :
  py_set (VList (VStr <$> tags)) = Ok (VStr <$> tags).
Proof. unfold py_set. simpl. by rewrite hashable_strings. Qed.

Lemma meets_excluded_strings (tags : list pystr) :
  meets_excluded (VStr <$> tags)
  = existsb (λ tag, existsb (eqb_str tag) excluded_tags) tags.
Proof.
  unfold meets_excluded. induction tags as [|t tags IH]; [done|].
  simpl. f_equal. exact IH.
Qed.

Lemma tags_of_strings place (tags : list pystr) :
  place !! TAGS = Some (VList (VStr <$> tags)) → tags_of place = tags.
Proof.
  intros H. unfold tags_of. rewrite H. clear H.
  induction tags as [|t tags IH]; [done|]. simpl. f_equal. exact IH.
Qed.

(** What the loop does with one well-formed place. *)
Lemma place_tags_string_tags place :
  string_tags place →
  ∃ members, py_set (default (VList []) (place !! TAGS)) = Ok members ∧
             meets_excluded members = is_excluded place.
Proof.
  intros Hwf. unfold is_excluded.
  destruct (place !! TAGS) as [v|] eqn:E.
  - destruct (Hwf v E) as [tags ->]. exists (VStr <$> tags).
    split; [apply py_set_strings|].
    by rewrite meets_excluded_strings, (tags_of_strings place tags).
  - exists []. split; [done|]. unfold tags_of. by rewrite E.
Qed.

Lemma filter_loop_string_tags places filtered_places removed_count :
  Forall string_tags places →
  filter_loop places filtered_places removed_count
  = Ok (filtered_places
          ++ (keep_fields <$> List.filter (λ p, negb (is_excluded p)) places),
        (removed_count + List.length (List.filter is_excluded places))%nat).
Proof.
  intros H. revert filtered_places removed_count.
  induction H as [|place places Hp _ IH]; intros filtered_places removed_count.
  - simpl. by rewrite app_nil_r, Nat.add_0_r.
  - simpl filter_loop.
    destruct (place_tags_string_tags place Hp) as (members & -> & Hm).
    unfold mbind, result_bind. rewrite Hm. simpl List.filter.
    destruct (is_excluded place); simpl.
    + rewrite IH. do 2 f_equal. lia.
    + rewrite IH. by rewrite <- app_assoc.
Qed.

(** X13: on places whose tags are lists of strings the response filter
    keeps, in input order, exactly the places that carry none of the tags
    "lodging", "selfcare" and "night_club", each reduced to the kept fields,
    and counts the others: kept and removed places add up to the input, and
    no kept place carries an excluded tag. *)
Theorem filter_places_spec (places : list (gmap pystr value)) :
  Forall string_tags places →
  ∃ filtered_places removed_count,
    filter_places places = Ok (filtered_places, removed_count) ∧
    filtered_places
    = keep_fields <$> List.filter (λ p, negb (is_excluded p)) places ∧
    removed_count = List.length (List.filter is_excluded places) ∧
    (List.length filtered_places + removed_count)%nat = List.length places ∧
    ∀ place tag,
      place ∈ List.filter (λ p, negb (is_excluded p)) places →
      tag ∈ tags_of place → tag ∉ excluded_tags.
Proof.
  intros H. unfold filter_places.
  rewrite filter_loop_string_tags by done. simpl.
  eexists _, _. split; [done|]. split; [done|]. split; [done|]. split.
  - rewrite length_fmap. clear H.
    induction places as [|p places IH]; simpl; [done|].
    destruct (is_excluded p); simpl; lia.
  - intros place tag Hin Htag Hex.
    apply list_elem_of_In, filter_In in Hin as [_ Hne].
    apply negb_true_iff in Hne. unfold is_excluded in Hne.
    assert (existsb (λ tag, existsb (eqb_str tag) excluded_tags)
              (tags_of place) = true) as Hyes; [|congruence].
    apply existsb_exists. exists tag. split; [by apply list_elem_of_In|].
    apply existsb_exists. exists tag.
    split; [by apply list_elem_of_In|by apply eqb_str_spec].
Qed.

Lemma filter_loop_raises good bad rest filtered_places removed_count e :
  Forall string_tags good →
  py_set (default (VList []) (bad !! TAGS)) = Raise e →
  filter_loop (good ++ bad :: rest) filtered_places removed_count = Raise e.
Proof.
  intros H Hbad. revert filtered_places removed_count.
  induction H as [|place places Hp _ IH]; intros filtered_places removed_count.
  - simpl. by rewrite Hbad.
  - simpl filter_loop.
    destruct (place_tags_string_tags place Hp) as (members & -> & _).
    unfold mbind, result_bind. by destruct (meets_excluded members).
Qed.

(** X14: a place whose "tags" is present but is not iterable, such as
    null or a number, or has a member that cannot be hashed, makes the whole
    run fail with [TypeError], whatever the other places are; a place
    without any "tags" key is fine. *)
Theorem filter_places_bad_tags (good : list (gmap pystr value))
    (bad : gmap pystr value) (rest : list (gmap pystr value)) (v : value) :
  Forall string_tags good →
  bad !! TAGS = Some v →
  v = VNone ∨ (∃ b, v = VBool b) ∨ (∃ z, v = VInt z) ∨ (∃ f, v = VFloat f)
  ∨ (∃ l, v = VList l ∧ forallb hashable l = false) →
  filter_places (good ++ bad :: rest) = Raise TypeError ∧
  filter_places (good ++ delete TAGS bad :: [])
  = Ok (keep_fields
          <$> List.filter (λ p, negb (is_excluded p)) good ++ [delete TAGS bad],
        List.length (List.filter is_excluded good)).
Proof.
  intros Hgood Hbad Hv. split.
  - apply filter_loop_raises; [done|]. rewrite Hbad. simpl.
    destruct Hv as [->|[[b ->]|[[z ->]|[[f ->]|(l & -> & Hl)]]]]; try done.
    unfold py_set. simpl. by rewrite Hl.
  - unfold filter_places. rewrite filter_loop_string_tags.
    + simpl. rewrite !List.filter_app. simpl.
      assert (is_excluded (delete TAGS bad) = false) as ->.
      { unfold is_excluded, tags_of. by rewrite lookup_delete_eq. }
      simpl. by rewrite app_nil_r.
    + apply Forall_app. split; [done|]. constructor; [|constructor].
      intros v'. by rewrite lookup_delete_eq.
Qed.

End ResponseFilter.

Section KeptFields.

Lemma keep_field_other place acc item key :
  snd item ≠ key → keep_field place acc item !! key = acc !! key.
Proof.
  intros Hne. unfold keep_field.
  destruct (place !! fst item); [by rewrite lookup_insert_ne|].
  destruct (eqb_str (snd item) DISTANCE); [by rewrite lookup_insert_ne|done].
Qed.

Lemma foldl_keep_field_other place fields acc key :
  key ∉ snd <$> fields →
  foldl (keep_field place) acc fields !! key = acc !! key.
Proof.
  revert acc. induction fields as [|item fields IH]; intros acc Hk; [done|].
  apply not_elem_of_cons in Hk as [Hne Hk]. simpl.
  rewrite IH by done. by apply keep_field_other.
Qed.

(** The entry of the filtered place under the new name of a field. *)
Lemma foldl_keep_field place before item after acc :
  snd item ∉ snd <$> after →
  foldl (keep_field place) acc (before ++ item :: after) !! snd item
  = match place !! fst item with
    | Some v => Some v
    | None =>
        if eqb_str (snd item) DISTANCE then Some VNone
        else foldl (keep_field place) acc before !! snd item
    end.
Proof.
  intros Hk. rewrite foldl_app. simpl.
  rewrite foldl_keep_field_other by done. unfold keep_field at 1.
  destruct (place !! fst item); [by rewrite lookup_insert_eq|].
  destruct (eqb_str (snd item) DISTANCE); [by rewrite lookup_insert_eq|done].
Qed.

Lemma keep_fields_lookup place :
  keep_fields place !! py "id" = place !! py "place_id" ∧
  keep_fields place !! py "lat" = place !! py "latitude" ∧
  keep_fields place !! py "lon" = place !! py "longitude" ∧
  keep_fields place !! py "name" = place !! py "name" ∧
  keep_fields place !! py "hours" = place !! py "hours" ∧
  keep_fields place !! py "detailed_description" = place !! py "summary" ∧
  keep_fields place !! py "tags" = place !! py "tags" ∧
  keep_fields place !! py "distance"
  = Some (default VNone (place !! py "distance")) ∧
  ∀ key, key ∉ snd <$> fields_to_keep → keep_fields place !! key = None.
Proof.
  assert (∀ before item after,
            fields_to_keep = before ++ item :: after →
            snd item ∉ snd <$> before → snd item ∉ snd <$> after →
            keep_fields place !! snd item
            = match place !! fst item with
              | Some v => Some v
              | None => if eqb_str (snd item) DISTANCE then Some VNone
                        else None
              end) as Hat.
  { intros before item after E Hb Ha. unfold keep_fields. rewrite E.
    rewrite foldl_keep_field by done.
    by rewrite foldl_keep_field_other, lookup_empty by done. }
  repeat split.
  - pose proof (Hat [] (py "place_id", py "id")
                  (tail fields_to_keep) eq_refl
                  ltac:(by_computation) ltac:(by_computation)) as H.
    cbn [fst snd] in H. rewrite H. by destruct (place !! _).
  - pose proof (Hat (take 1 fields_to_keep) (py "latitude", py "lat")
                  (drop 2 fields_to_keep) eq_refl
                  ltac:(by_computation) ltac:(by_computation)) as H.
    cbn [fst snd] in H. rewrite H. by destruct (place !! _).
  - pose proof (Hat (take 2 fields_to_keep) (py "longitude", py "lon")
                  (drop 3 fields_to_keep) eq_refl
                  ltac:(by_computation) ltac:(by_computation)) as H.
    cbn [fst snd] in H. rewrite H. by destruct (place !! _).
  - pose proof (Hat (take 3 fields_to_keep) (py "name", py "name")
                  (drop 4 fields_to_keep) eq_refl
                  ltac:(by_computation) ltac:(by_computation)) as H.
    cbn [fst snd] in H. rewrite H. by destruct (place !! _).
  - pose proof (Hat (take 4 fields_to_keep) (py "hours", py "hours")
                  (drop 5 fields_to_keep) eq_refl
                  ltac:(by_computation) ltac:(by_computation)) as H.
    cbn [fst snd] in H. rewrite H. by destruct (place !! _).
  - pose proof (Hat (take 5 fields_to_keep) (py "summary", py "detailed_description")
                  (drop 6 fields_to_keep) eq_refl
                  ltac:(by_computation) ltac:(by_computation)) as H.
    cbn [fst snd] in H. rewrite H. by destruct (place !! _).
  - pose proof (Hat (take 6 fields_to_keep) (py "tags", py "tags")
                  (drop 7 fields_to_keep) eq_refl
                  ltac:(by_computation) ltac:(by_computation)) as H.
    cbn [fst snd] in H. rewrite H. by destruct (place !! _).
  - pose proof (Hat (take 7 fields_to_keep) (py "distance", py "distance")
                  [] eq_refl
                  ltac:(by_computation) ltac:(by_computation)) as H.
    cbn [fst snd] in H. rewrite H. by destruct (place !! _).
  - intros key Hk. unfold keep_fields.
    by rewrite foldl_keep_field_other, lookup_empty.
Qed.

End KeptFields.

Section KeptFieldsProperties.
Context {U : Unicode}.

(** X15: the filtered place holds the values of the original's place_id,
    latitude, longitude, name, hours, summary and tags under the names id,
    lat, lon, name, hours, detailed_description and tags, each present
    exactly when the original field is; it always has a distance, null when
    the original has none; and it has no other key. *)
Theorem keep_fields_renames (place : gmap pystr value) :
  keep_fields place !! py "id" = place !! py "place_id" ∧
  keep_fields place !! py "lat" = place !! py "latitude" ∧
  keep_fields place !! py "lon" = place !! py "longitude" ∧
  keep_fields place !! py "name" = place !! py "name" ∧
  keep_fields place !! py "hours" = place !! py "hours" ∧
  keep_fields place !! py "detailed_description" = place !! py "summary" ∧
  keep_fields place !! py "tags" = place !! py "tags" ∧
  keep_fields place !! py "distance"
  = Some (default VNone (place !! py "distance")) ∧
  ∀ key, key ∉ snd <$> fields_to_keep → keep_fields place !! key = None.
Proof. apply keep_fields_lookup. Qed.

Lemma is_place_open_hours_only place place' query_time query_day :
  place !! HOURS = place' !! HOURS →
  is_place_open place query_time query_day
  = is_place_open place' query_time query_day.
Proof. intros H. unfold is_place_open. by rewrite H. Qed.

(** X16: the response filter does not change the answer of the hours
    filter: the filtered place is open exactly when the original place is,
    and raises exactly when it does, for every day and time. *)
Theorem is_place_open_keep_fields (place : gmap pystr value)
    (query_time : time) (query_day : pystr) :
  is_place_open (keep_fields place) query_time query_day
  = is_place_open place query_time query_day.
Proof.
  apply is_place_open_hours_only.
  exact (proj1 (proj2 (proj2 (proj2 (proj2 (keep_fields_lookup place)))))).
Qed.

(** X17: the response filter is not meant for its own output: filtering a
    filtered place again drops its id, lat, lon and detailed_description,
    since the fields are looked up under their original names; name, hours,
    tags and distance survive. *)
Theorem keep_fields_twice (place : gmap pystr value) :
  keep_fields (keep_fields place) !! py "id" = None ∧
  keep_fields (keep_fields place) !! py "lat" = None ∧
  keep_fields (keep_fields place) !! py "lon" = None ∧
  keep_fields (keep_fields place) !! py "detailed_description" = None ∧
  keep_fields (keep_fields place) !! py "name" = place !! py "name" ∧
  keep_fields (keep_fields place) !! py "hours" = place !! py "hours" ∧
  keep_fields (keep_fields place) !! py "tags" = place !! py "tags" ∧
  keep_fields (keep_fields place) !! py "distance"
  = Some (default VNone (place !! py "distance")).
Proof.
  destruct (keep_fields_lookup place)
    as (_ & _ & _ & Hname & Hhours & _ & Htags & Hdist & Hother).
  destruct (keep_fields_lookup (keep_fields place))
    as (Hid' & Hlat' & Hlon' & Hname' & Hhours' & Hdesc' & Htags' & Hdist'
        & _).
  rewrite Hid', Hlat', Hlon', Hdesc', Hname', Hhours', Htags', Hdist'.
  rewrite Hname, Hhours, Htags, Hdist.
  repeat split; try (apply Hother; by_computation).
Qed.

End KeptFieldsProperties.

Lemma filter_places_spec_witness :
  ∃ filtered_places removed_count,
    filter_places
      [ {[ py "name" := VStr (py "Inn"); TAGS := VList [VStr (py "lodging")] ]};
        {[ py "name" := VStr (py "Cafe"); TAGS := VList [VStr (py "food")] ]} ]
    = Ok (filtered_places, removed_count) ∧
    List.length filtered_places = 1%nat ∧ removed_count = 1%nat.
Proof.
  destruct (filter_places_spec
      [ {[ py "name" := VStr (py "Inn"); TAGS := VList [VStr (py "lodging")] ]};
        {[ py "name" := VStr (py "Cafe"); TAGS := VList [VStr (py "food")] ]} ])
    as (filtered_places & removed_count & Hrun & -> & -> & _).
  - constructor; [|constructor; [|constructor]].
    + intros v Hv. vm_compute in Hv. injection Hv as <-.
      by exists [py "lodging"].
    + intros v Hv. vm_compute in Hv. injection Hv as <-.
      by exists [py "food"].
  - eexists _, _. split; [exact Hrun|]. split; vm_compute; reflexivity.
Defined.

Lemma filter_places_bad_tags_witness :
  filter_places
    ([ {[ py "name" := VStr (py "Cafe"); TAGS := VList [VStr (py "food")] ]} ]
       ++ {[ py "name" := VStr (py "Inn"); TAGS := VNone ]} :: [])
  = Raise TypeError.
Proof.
  refine (proj1 (filter_places_bad_tags _ _ [] VNone _ _ _)).
  - constructor; [|constructor].
    intros v Hv. vm_compute in Hv. injection Hv as <-.
    by exists [py "food"].
  - vm_compute. reflexivity.
  - by left.
Defined.

(** * Properties of the tag analysis *)

Section TagAnalysis.

Lemma count_element_total counts elem :
  total_count (count_element counts elem) = S (total_count counts).
Proof.
  induction counts as [|[key n] counts IH]; simpl; [done|].
  destruct (key_eqb key elem); simpl; [done|]. rewrite IH. lia.
Qed.

Lemma foldl_count_element_total elems counts :
  total_count (foldl count_element counts elems)
  = (total_count counts + List.length elems)%nat.
Proof.
  revert counts. induction elems as [|x elems IH]; intros counts; simpl.
  - lia.
  - rewrite IH, count_element_total. lia.
Qed.

Lemma count_element_positive counts elem :
  Forall (λ item, (1 ≤ snd item)%nat) counts →
  Forall (λ item, (1 ≤ snd item)%nat) (count_element counts elem).
Proof.
  induction 1 as [|[key n] counts Hn Hc IH]; simpl.
  - by repeat constructor.
  - destruct (key_eqb key elem); constructor; simpl in *; (lia || done).
Qed.

Lemma foldl_count_element_positive elems counts :
  Forall (λ item, (1 ≤ snd item)%nat) counts →
  Forall (λ item, (1 ≤ snd item)%nat) (foldl count_element counts elems).
Proof.
  revert counts. induction elems as [|x elems IH]; intros counts H; [done|].
  simpl. by apply IH, count_element_positive.
Qed.

Lemma total_count_length counts :
  Forall (λ item, (1 ≤ snd item)%nat) counts →
  (List.length counts ≤ total_count counts)%nat.
Proof. induction 1 as [|[key n] counts Hn _ IH]; simpl in *; lia. Qed.

Lemma collect_tags_counts places all_tags w wo all_tags' w' wo' :
  collect_tags places all_tags w wo = Ok (all_tags', w', wo') →
  (w' + wo' = w + wo + List.length places)%nat.
Proof.
  revert all_tags w wo. induction places as [|place places IH];
    intros all_tags w wo; simpl.
  - intros [= <- <- <-]. lia.
  - destruct (place !! TAGS) as [tags|].
    + destruct (truthy tags).
      * destruct (iterate tags) as [members|]; [|done]. simpl.
        intros H%IH. lia.
      * intros H%IH. lia.
    + intros H%IH. lia.
Qed.

(** X18: in every analysis that [analyze_tags] returns the places with
    tags and the places without add up to the total number of places, which
    is the length of the input; the counts of all tags add up to the number
    of tag instances; every listed tag was counted at least once; and the
    unique tags are no more than the tag instances. *)
Theorem analyze_tags_totals (places : list (gmap pystr value)) (a : analysis) :
  analyze_tags places = Ok a →
  total_places a = List.length places ∧
  (places_with_tags a + places_without_tags a)%nat = total_places a ∧
  total_count (tag_counts a) = total_tags a ∧
  unique_tags a = List.length (tag_counts a) ∧
  Forall (λ item, (1 ≤ snd item)%nat) (tag_counts a) ∧
  (unique_tags a ≤ total_tags a)%nat.
Proof.
  unfold analyze_tags.
  destruct (collect_tags places [] 0 0) as [[[all_tags w] wo]|] eqn:E; [|done].
  simpl. unfold Counter.
  destruct (forallb hashable all_tags); [|done]. simpl. intros [= <-]. simpl.
  apply collect_tags_counts in E.
  pose proof (foldl_count_element_total all_tags []) as Ht. simpl in Ht.
  pose proof (foldl_count_element_positive all_tags [] ltac:(constructor))
    as Hp.
  pose proof (total_count_length _ Hp).
  repeat split; (done || lia).
Qed.

Lemma count_of_count_element counts (s t : pystr) :
  Forall (λ item, ∃ u, fst item = VStr u) counts →
  count_of (count_element counts (VStr s)) (VStr t)
  = (count_of counts (VStr t) + if eqb_str s t then 1 else 0)%nat.
Proof.
  unfold count_of. induction 1 as [|[key n] counts [u Hu] _ IH]; simpl.
  - by destruct (eqb_str s t).
  - simpl in Hu. subst key. simpl.
    destruct (eqb_str u s) eqn:Eus; simpl.
    + apply eqb_str_spec in Eus as ->.
      destruct (eqb_str s t); simpl; lia.
    + destruct (eqb_str u t) eqn:Eut; simpl; [|exact IH].
      assert (eqb_str s t = false) as ->; [|lia].
      apply not_true_is_false. intros ->%eqb_str_spec. congruence.
Qed.

Lemma count_element_strings counts s :
  Forall (λ item, ∃ u, fst item = VStr u) counts →
  Forall (λ item, ∃ u, fst item = VStr u) (count_element counts (VStr s)).
Proof.
  induction 1 as [|[key n] counts Hk Hc IH]; simpl.
  - constructor; [by exists s|constructor].
  - destruct (key_eqb key (VStr s)); by constructor.
Qed.

Lemma foldl_count_of (tags : list pystr) counts t :
  Forall (λ item, ∃ u, fst item = VStr u) counts →
  count_of (foldl count_element counts (VStr <$> tags)) (VStr t)
  = (count_of counts (VStr t)
     + List.length (List.filter (λ s, eqb_str s t) tags))%nat.
Proof.
  revert counts. induction tags as [|s tags IH]; intros counts H; simpl.
  - lia.
  - rewrite IH by by apply count_element_strings.
    rewrite count_of_count_element by done.
    destruct (eqb_str s t); simpl; lia.
Qed.

Lemma collect_tags_strings places all_tags w wo :
  Forall string_tags places →
  collect_tags places (VStr <$> all_tags) w wo
  = Ok (VStr <$> (all_tags ++ concat (tags_of <$> places)),
        (w + List.length (List.filter (λ p, negb (bool_decide (tags_of p = []))) places))%nat,
        (wo + List.length (List.filter (λ p, bool_decide (tags_of p = [])) places))%nat).
Proof.
  intros H. revert all_tags w wo.
  induction H as [|place places Hp _ IH]; intros all_tags w wo.
  - simpl. rewrite app_nil_r. triple.
  - simpl collect_tags. cbn [fmap list_fmap concat List.filter].
    destruct (place !! TAGS) as [v|] eqn:E.
    + destruct (Hp v E) as [tags ->].
      rewrite (tags_of_strings place tags E).
      destruct tags as [|t tags].
      * simpl. rewrite IH. triple.
      * change (truthy _) with true. cbn [iterate mbind result_bind].
        rewrite <- fmap_app, IH. rewrite <- app_assoc.
        simpl. triple.
    + assert (tags_of place = []) as -> by (unfold tags_of; by rewrite E).
      simpl. rewrite IH. triple.
Qed.

(** X19: on places whose tags are lists of strings the analysis succeeds;
    its tag instances are the tags of all places taken together, the count
    kept for a tag is the number of times it occurs among them, and a place
    counts as tagged exactly when its tag list is not empty. *)
Theorem analyze_tags_counts (places : list (gmap pystr value)) :
  Forall string_tags places →
  ∃ a,
    analyze_tags places = Ok a ∧
    total_tags a = List.length (concat (tags_of <$> places)) ∧
    (∀ tag,
       count_of (tag_counts a) (VStr tag)
       = List.length (List.filter (λ s, eqb_str s tag)
                        (concat (tags_of <$> places)))) ∧
    places_with_tags a
    = List.length (List.filter (λ p, negb (bool_decide (tags_of p = [])))
                     places) ∧
    places_without_tags a
    = List.length (List.filter (λ p, bool_decide (tags_of p = [])) places).
Proof.
  intros H. unfold analyze_tags.
  pose proof (collect_tags_strings places [] 0 0 H) as E. simpl in E.
  rewrite E. simpl. unfold Counter.
  rewrite hashable_strings.
  simpl. eexists. split; [done|]. simpl.
  split; [by rewrite length_fmap|]. split; [|done].
  intros tag. rewrite foldl_count_of by constructor. done.
Qed.

End TagAnalysis.

Lemma analyze_tags_totals_witness :
  (1 + 0)%nat = 1%nat.
Proof.
  assert (analyze_tags
            [ ({[ TAGS := VList [VStr (py "food"); VStr (py "cafe")] ]}
               : gmap pystr value) ]
          = Ok (Analysis
                  [(VStr (py "food"), 1%nat); (VStr (py "cafe"), 1%nat)]
                  1 1 0 2 2)) as Hrun by (vm_compute; reflexivity).
  exact (proj1 (proj2 (analyze_tags_totals _ _ Hrun))).
Defined.

Lemma analyze_tags_counts_witness :
  ∃ a,
    analyze_tags
      [ {[ TAGS := VList [VStr (py "food"); VStr (py "cafe")] ]};
        {[ TAGS := VList [VStr (py "food")] ]};
        ∅ ]
    = Ok a ∧ count_of (tag_counts a) (VStr (py "food")) = 2%nat.
Proof.
  destruct (analyze_tags_counts
      [ {[ TAGS := VList [VStr (py "food"); VStr (py "cafe")] ]};
        {[ TAGS := VList [VStr (py "food")] ]};
        ∅ ])
    as (a & Hrun & _ & Hcount & _).
  - constructor; [|constructor; [|constructor; [|constructor]]].
    + intros v Hv. vm_compute in Hv. injection Hv as <-.
      by exists [py "food"; py "cafe"].
    + intros v Hv. vm_compute in Hv. injection Hv as <-.
      by exists [py "food"].
    + intros v Hv. by rewrite lookup_empty in Hv.
  - exists a. split; [exact Hrun|]. rewrite Hcount. vm_compute. reflexivity.
Defined.
